(** * JADU_MSME: inventory service, inventory controller and the agent's
      decision pipeline

    The first part embeds the JavaScript backend
    ([backend/src/services/inventory.service.js] and
    [backend/src/controllers/inventory.controller.js]).  The Prisma tables
    are lists of rows in table order, a [findMany] is a filter followed by a
    stable sort, and a [$transaction] is a state-and-exception computation
    whose writes are dropped when its body throws.

    Conventions.
    - A [Date] is a time value: the number of milliseconds since the epoch,
      as [Date.prototype.getTime] gives it.  A date computed by [setDate] is
      clipped to the range of time values and may be an Invalid Date; the
      clock and the dates stored in the tables are valid.  [setDate] works
      in local time, so the time zone is a parameter.
    - A JavaScript number is a double: [NaN], an infinity or, in this code,
      a double whose value is an integer ([JS.number]).  Quantities stored
      in the tables are integers.
    - A character of a string is a code unit below 256.
    - The database is there and answers: a query fails only when the client
      refuses a value it is given (an Invalid Date, a number that is not
      finite). *)

From Stdlib Require Import ZArith List String Ascii Bool Lia.
From Stdlib Require Import Sorting.Sorted Sorting.Permutation.
From Stdlib Require Import QArith Lqa.
From Stdlib Require Import DecimalString DecimalZ DecimalPos.
Import ListNotations.
Open Scope string_scope.
Open Scope Z_scope.

(** ** Ordering rows: [orderBy] *)

Module Order.
Section Sorting.
Context {A : Type}.
Variable leb : A -> A -> bool.

(** Insertion from the left keeps rows that compare equal in their original
    order. *)
Fixpoint insert (x : A) (l : list A) : list A :=
  match l with
  | [] => [x]
  | y :: l' => if leb x y then x :: y :: l' else y :: insert x l'
  end.

Fixpoint sort (l : list A) : list A :=
  match l with
  | [] => []
  | x :: l' => insert x (sort l')
  end.

End Sorting.
End Order.

(** ** JavaScript numbers, strings and the values of a request *)

Module JS.

(** A number as this code meets it: [NaN], an infinity, or a double whose
    value is the integer [z].  [parseInt] gives no other number, and the sum
    of two such numbers is one again.  The two zeros are not told apart:
    they add, compare, print and test as falsy alike. *)
Inductive number :=
| NaN
| Infinity (negative : bool)
| Finite (z : Z).

(** The integers every one of which is a double. *)
Definition safe (z : Z) : Prop := Z.abs z < 2 ^ 53.

(** The double nearest to an integer, the even significand on a tie, an
    infinity from 2^1024 on.  An integer of magnitude below 2^53 is a
    double. *)
Definition roundToDouble (z : Z) : number :=
  let a := Z.abs z in
  if a <? 2 ^ 53 then Finite z
  else
    let e := Z.log2 a - 52 in
    let q := a / 2 ^ e in
    let r := a mod 2 ^ e in
    let half := 2 ^ (e - 1) in
    let q' := if (half <? r) || ((r =? half) && Z.odd q) then q + 1 else q in
    let m := q' * 2 ^ e in
    if 2 ^ 1024 <=? m then Infinity (z <? 0) else Finite (Z.sgn z * m).

(** [a + b] *)
Definition add (a b : number) : number :=
  match a, b with
  | NaN, _ | _, NaN => NaN
  | Infinity s, Infinity s' => if Bool.eqb s s' then Infinity s else NaN
  | Infinity s, Finite _ | Finite _, Infinity s => Infinity s
  | Finite x, Finite y => roundToDouble (x + y)
  end.

(** [a < 0]; a comparison with [NaN] is false. *)
Definition isNegative (a : number) : bool :=
  match a with
  | NaN => false
  | Infinity negative => negative
  | Finite z => z <? 0
  end.

(** [x || d] on numbers: [NaN] and [0] are falsy. *)
Definition orElse (x d : number) : number :=
  match x with
  | NaN => d
  | Infinity _ => x
  | Finite n => if n =? 0 then d else x
  end.

(** White space that [parseInt] and [trim] skip, among the code units below
    256: TAB, LF, VT, FF, CR, SP and NBSP. *)
Definition isWhiteSpace (c : ascii) : bool :=
  let n := nat_of_ascii c in
  (Nat.leb 9 n && Nat.leb n 13) || Nat.eqb n 32 || Nat.eqb n 160.

Fixpoint trimStart (s : string) : string :=
  match s with
  | String c r => if isWhiteSpace c then trimStart r else s
  | EmptyString => s
  end.

(** The value of a digit of a radix up to 36. *)
Definition digitValue (c : ascii) : option Z :=
  let n := Z.of_nat (nat_of_ascii c) in
  if (48 <=? n) && (n <=? 57) then Some (n - 48)
  else if (97 <=? n) && (n <=? 122) then Some (n - 87)
  else if (65 <=? n) && (n <=? 90) then Some (n - 55)
  else None.

(** The longest prefix of [s] made of digits of radix [R], read as a
    number; [acc] is [None] until a digit has been read. *)
Fixpoint parseDigits (R : Z) (s : string) (acc : option Z) : option Z :=
  match s with
  | String c r =>
      match digitValue c with
      | Some d =>
          if d <? R
          then parseDigits R r
                 (Some (match acc with Some a => a * R + d | None => d end))
          else acc
      | None => acc
      end
  | EmptyString => acc
  end.

Definition stripSign (s : string) : Z * string :=
  match s with
  | String "-" r => (-1, r)
  | String "+" r => (1, r)
  | _ => (1, s)
  end.

Definition stripPrefix (s : string) : Z * string :=
  match s with
  | String "0" (String "x" r) => (16, r)
  | String "0" (String "X" r) => (16, r)
  | _ => (10, s)
  end.

(** [parseInt (string)] without a radix: white space, a sign, [0x] for
    radix 16, then digits; [NaN] when there is no digit, and otherwise the
    double nearest to the integer read. *)
Definition parseIntString (s : string) : number :=
  let '(sign, str) := stripSign (trimStart s) in
  let '(R, str) := stripPrefix str in
  match parseDigits R str None with
  | Some mathInt => roundToDouble (sign * mathInt)
  | None => NaN
  end.

(** The decimal digits of an integer, after a minus sign when it is
    negative. *)
Definition digits (z : Z) : string := NilZero.string_of_int (Z.to_int z).

(** Whether the positive integer [v] rounds to the double [x]. *)
Definition roundsTo (v x : Z) : bool :=
  match roundToDouble v with
  | Finite y => y =? x
  | _ => false
  end.

(** The digits Number::toString prints for a double [x] of [n] decimal
    digits: the least [k], from [k] on, with a [k]-digit [s] such that
    [s * 10 ^ (n - k)] rounds to [x], and of two such [s] the one closer to
    [x], the even one when they are as close. *)
Fixpoint shortest (fuel : nat) (k n x : Z) : Z * Z :=
  match fuel with
  | O => (x, n)
  | S fuel' =>
      let p := 10 ^ (n - k) in
      let lo := x / p in
      let hi := lo + 1 in
      let okLo := roundsTo (lo * p) x in
      let okHi := (hi <? 10 ^ k) && roundsTo (hi * p) x in
      if okLo && okHi then
        let dLo := x - lo * p in
        let dHi := hi * p - x in
        if dLo <? dHi then (lo, k)
        else if dHi <? dLo then (hi, k)
        else if Z.even lo then (lo, k) else (hi, k)
      else if okLo then (lo, k)
      else if okHi then (hi, k)
      else shortest fuel' (k + 1) n x
  end.

Fixpoint zeros (n : nat) : string :=
  match n with
  | O => ""
  | S n' => String "0" (zeros n')
  end.

(** Number::toString of a double [x >= 2^53]: its shortest digits, followed
    by zeros below 1e21, in exponent form from 1e21 on. *)
Definition largeToString (x : Z) : string :=
  let n0 := Z.of_nat (String.length (digits x)) in
  let '(s, k, n) :=
    if roundsTo (10 ^ n0) x then (1, 1, n0 + 1)
    else let '(s, k) := shortest (Z.to_nat n0) 1 n0 x in (s, k, n0) in
  if n <=? 21 then digits s ++ zeros (Z.to_nat (n - k))
  else
    match digits s with
    | String c rest =>
        String c (match rest with EmptyString => "" | _ => String "." rest end)
        ++ "e+" ++ digits (n - 1)
    | EmptyString => ""
    end.

(** Number::toString *)
Definition numberToString (x : number) : string :=
  match x with
  | NaN => "NaN"
  | Infinity false => "Infinity"
  | Infinity true => "-Infinity"
  | Finite z =>
      if Z.abs z <? 2 ^ 53 then digits z
      else if z <? 0 then String "-" (largeToString (- z))
      else largeToString z
  end.

(** A property of [req.query] or [req.body]: missing, [null], a boolean, a
    number, a string or something else.  [Num z] is the number an integer
    literal [z] denotes, the double nearest to [z].  [Frac negative int frac]
    is a number with a fractional part and a magnitude of 1e-6 at least,
    given by what Number::toString prints for it: a minus sign when it is
    negative, the digits of its integer part, a point and the digits of its
    fraction; -5.9 is [Frac true 5 (D9 Nil)].  [Other s] is any other value
    (a number of magnitude below 1e-6, which prints as 5e-7 does, an array,
    an object), given by the string ToString makes of it. *)
Inductive value :=
| undefined
| null
| Bool (b : bool)
| Num (z : Z)
| Frac (negative : bool) (int : N) (frac : Decimal.uint)
| Str (s : string)
| Other (s : string).

(** ToString *)
Definition toString (v : value) : string :=
  match v with
  | undefined => "undefined"
  | null => "null"
  | Bool true => "true"
  | Bool false => "false"
  | Num z => numberToString (roundToDouble z)
  | Frac negative int frac =>
      (if negative then "-" else "")
      ++ digits (Z.of_N int) ++ "." ++ NilEmpty.string_of_uint frac
  | Str s => s
  | Other s => s
  end.

(** [parseInt (v)]: ToString first. *)
Definition parseInt (v : value) : number := parseIntString (toString v).

(** [s || d] on a string that may be missing: [undefined] and the empty
    string are falsy. *)
Definition strOrElse (v : option string) (d : string) : string :=
  match v with
  | Some s => if String.eqb s "" then d else s
  | None => d
  end.

(** The value of a string of decimal digits read from the left, [a] being
    the value of the digits already read. *)
Fixpoint horner (d : Decimal.uint) (a : Z) : Z :=
  match d with
  | Decimal.Nil => a
  | Decimal.D0 l => horner l (a * 10 + 0)
  | Decimal.D1 l => horner l (a * 10 + 1)
  | Decimal.D2 l => horner l (a * 10 + 2)
  | Decimal.D3 l => horner l (a * 10 + 3)
  | Decimal.D4 l => horner l (a * 10 + 4)
  | Decimal.D5 l => horner l (a * 10 + 5)
  | Decimal.D6 l => horner l (a * 10 + 6)
  | Decimal.D7 l => horner l (a * 10 + 7)
  | Decimal.D8 l => horner l (a * 10 + 8)
  | Decimal.D9 l => horner l (a * 10 + 9)
  end.

End JS.

(** Evaluates [digitValue] at the character in the goal. *)
Ltac digit_value :=
  match goal with
  | |- context [JS.digitValue ?c] =>
      let v := eval vm_compute in (JS.digitValue c) in
      change (JS.digitValue c) with v
  end.

(** ** The tables

    [schema.prisma] is not among the sources: a row has the fields the
    service and the controller read and write ([id], [itemId], [quantity],
    [expiryDate], [batchNumber], [deletedAt], ...), and the expiry date of a
    batch is always there, as in the specification's data model, "batches:
    [{batchId, quantity, expiryDate}]". *)

Definition Date := Z.

Definition msPerDay : Z := 86400000.

(** The largest time value: 100,000,000 days from the epoch. *)
Definition maxTime : Z := 8640000000000000.

(** TimeClip: a time beyond the range of time values is an Invalid Date. *)
Definition TimeClip (time : Z) : option Date :=
  if Z.abs time <=? maxTime then Some time else None.

(** The time zone of the server: the offset of local time from UTC, in
    milliseconds, at a UTC time ([offsetAtUTC]) and at a local time
    ([offsetAtLocal]). *)
Record TimeZone := mkZone {
  offsetAtUTC : Z -> Z;
  offsetAtLocal : Z -> Z
}.

Definition UTC : TimeZone := mkZone (fun _ => 0) (fun _ => 0).

(** A zone whose offsets are less than a day apart. *)
Definition lessThanADayApart (tz : TimeZone) : Prop :=
  forall t t',
    Z.abs (offsetAtUTC tz t - offsetAtLocal tz t') < msPerDay
    /\ Z.abs (offsetAtLocal tz t - offsetAtLocal tz t') < msPerDay.

(** [Date.prototype.setDate (getDate () + days)] on a copy of [d]: the same
    local time of day, [days] days later in the local calendar, back in UTC
    and clipped.  [None] is an Invalid Date; a [days] that is not finite
    gives one. *)
Definition addDays (tz : TimeZone) (d : Date) (days : JS.number) : option Date :=
  match days with
  | JS.Finite n =>
      let t := d + offsetAtUTC tz d in
      let newDate := t + n * msPerDay in
      TimeClip (newDate - offsetAtLocal tz newDate)
  | _ => None
  end.

Record Item := mkItem {
  item_id : string;
  item_name : string;
  reorderPoint : Z;
  deletedAt : option Date
}.

Record InventoryBatch := mkBatch {
  batch_id : string;
  batch_itemId : string;
  batchNumber : string;
  quantity : Z;
  expiryDate : Date
}.

Record InventoryTransaction := mkTransaction {
  tx_itemId : string;
  tx_batchId : string;
  changeType : string;
  tx_quantityChange : Z;
  referenceId : string
}.

Record Store := mkStore {
  items : list Item;
  inventoryBatch : list InventoryBatch;
  inventoryTransaction : list InventoryTransaction
}.

(** A batch with [data: { quantity }] written to it. *)
Definition with_quantity (b : InventoryBatch) (q : Z) : InventoryBatch :=
  mkBatch (batch_id b) (batch_itemId b) (batchNumber b) q (expiryDate b).

(** [orderBy: { expiryDate: "asc" }] *)
Definition expiry_leb (a b : InventoryBatch) : bool :=
  expiryDate a <=? expiryDate b.

Definition orderByExpiryAsc (l : list InventoryBatch) : list InventoryBatch :=
  Order.sort expiry_leb l.

(** [reduce ((sum, b) => sum + b.quantity, 0)] *)
Definition sum_quantity (l : list InventoryBatch) : Z :=
  fold_left (fun sum b => sum + quantity b) l 0.

(** ** backend/src/services/inventory.service.js *)

Module InventoryService.

Record BatchWithItem := mkBatchWithItem {
  batch : InventoryBatch;
  item : option Item
}.

(** [include: { item: true }] *)
Definition includeItem (db : Store) (b : InventoryBatch) : BatchWithItem :=
  mkBatchWithItem b
    (find (fun i => String.eqb (item_id i) (batch_itemId b)) (items db)).

(** The [where] clause of [getExpiringBatches]: [targetDate] is the upper
    bound, [now] is the value of the second [new Date ()]. *)
Definition expiringWhere (targetDate now : Date) (b : InventoryBatch) : bool :=
  (0 <? quantity b) && (expiryDate b <=? targetDate) && (now <=? expiryDate b).

(** What a call of the service gives: it returns, or it throws. *)
Inductive Result (A : Type) :=
| Returned (a : A)
| Thrown.
Arguments Returned {A} a.
Arguments Thrown {A}.

(** [getExpiringBatches (days)].  The clock is read twice: [clock0] by the
    [new Date ()] that [targetDate] starts from, [clock1] by the one inside
    the query.  The client refuses a [targetDate] that is an Invalid Date:
    the [catch] logs the error and throws it again. *)
Definition getExpiringBatches (db : Store) (tz : TimeZone) (clock0 clock1 : Date)
    (days : JS.number) : Result (list BatchWithItem) :=
  match addDays tz clock0 days with
  | Some targetDate =>
      let batches :=
        map (includeItem db)
          (orderByExpiryAsc
             (filter (expiringWhere targetDate clock1) (inventoryBatch db))) in
      Returned batches
  | None => Thrown
  end.

Record ItemWithStock := mkItemWithStock {
  base : Item;
  currentStock : Z
}.

(** [include: { inventoryBatches: { where: { quantity: { gt: 0 } } } }] *)
Definition inventoryBatches (db : Store) (i : Item) : list InventoryBatch :=
  filter (fun b => String.eqb (batch_itemId b) (item_id i) && (0 <? quantity b))
    (inventoryBatch db).

(** [getAllItems ()]: the items that are not deleted, each with the total of
    the batches fetched with it. *)
Definition getAllItems (db : Store) : list ItemWithStock :=
  let items :=
    filter (fun i => match deletedAt i with None => true | Some _ => false end)
      (items db) in
  map (fun item =>
         let totalStock :=
           fold_left (fun sum b => sum + quantity b) (inventoryBatches db item) 0 in
         mkItemWithStock item totalStock)
      items.

Record AllocationEntry := mkEntry {
  entry_batchId : string;
  qty : Z;
  expiry : Date;
  entry_batchNumber : string
}.

Record AllocationResult := mkResult {
  feasible : bool;
  shortfall : option Z;
  allocation : list AllocationEntry
}.

(** The [for (const batch of batches)] loop, on the state
    [(remaining, allocation)]. *)
Fixpoint allocateLoop (batches : list InventoryBatch) (remaining : Z)
    (allocation : list AllocationEntry) : Z * list AllocationEntry :=
  match batches with
  | [] => (remaining, allocation)
  | batch :: rest =>
      if remaining <=? 0 then (remaining, allocation)
      else
        let take := Z.min (quantity batch) remaining in
        allocateLoop rest (remaining - take)
          (allocation ++
             [mkEntry (batch_id batch) take (expiryDate batch) (batchNumber batch)])
  end.

(** The batches [allocateStockFEFO] reads. *)
Definition fefoBatches (db : Store) (itemId : string) : list InventoryBatch :=
  orderByExpiryAsc
    (filter (fun b => String.eqb (batch_itemId b) itemId && (0 <? quantity b))
       (inventoryBatch db)).

(** [allocateStockFEFO (itemId, qtyNeeded)] *)
Definition allocateStockFEFO (db : Store) (itemId : string) (qtyNeeded : Z)
  : AllocationResult :=
  let batches := fefoBatches db itemId in
  let '(remaining, allocation) := allocateLoop batches qtyNeeded [] in
  if 0 <? remaining
  then mkResult false (Some remaining) allocation
  else mkResult true None allocation.

End InventoryService.

(** ** backend/src/controllers/inventory.controller.js *)

Module InventoryController.

(** What [prisma.$transaction] runs: the store is threaded through, and the
    body returns or throws. *)
Inductive Error :=
| BatchNotFound
| NegativeQuantity
| InvalidValue.

(** [error.message]; the text of the client's own validation error is not
    part of these sources. *)
Definition message (e : Error) : option string :=
  match e with
  | BatchNotFound => Some "Batch not found"
  | NegativeQuantity => Some "Resulting quantity cannot be negative"
  | InvalidValue => None
  end.

Inductive outcome (A : Type) :=
| Returned (a : A)
| Thrown (e : Error).
Arguments Returned {A} a.
Arguments Thrown {A} e.

Definition Tx (A : Type) := Store -> Store * outcome A.

Definition ret {A} (a : A) : Tx A := fun s => (s, Returned a).

Definition throw {A} (e : Error) : Tx A := fun s => (s, Thrown e).

Definition bind {A B} (m : Tx A) (k : A -> Tx B) : Tx B :=
  fun s =>
    match m s with
    | (s', Returned a) => k a s'
    | (s', Thrown e) => (s', Thrown e)
    end.

Notation "x <- m ;; k" := (bind m (fun x => k))
  (at level 61, m at next level, right associativity).

(** [prisma.$transaction (async (tx) => ...)]: the writes of a body that
    throws are rolled back. *)
Definition transaction {A} (body : Tx A) : Tx A :=
  fun s =>
    match body s with
    | (s', Returned a) => (s', Returned a)
    | (_, Thrown e) => (s, Thrown e)
    end.

(** [tx.inventoryBatch.findUnique ({ where: { id } })] *)
Definition findUnique (id : string) : Tx (option InventoryBatch) :=
  fun s => (s, Returned (find (fun b => String.eqb (batch_id b) id) (inventoryBatch s))).

(** [tx.inventoryBatch.update ({ where: { id }, data: { quantity } })].  The
    column is an integer: the client refuses a [NaN] and an infinity. *)
Definition update (id : string) (newQty : JS.number) : Tx unit :=
  fun s =>
    match newQty with
    | JS.Finite q =>
        (mkStore (items s)
           (map (fun b => if String.eqb (batch_id b) id then with_quantity b q else b)
              (inventoryBatch s))
           (inventoryTransaction s),
         Returned tt)
    | _ => (s, Thrown InvalidValue)
    end.

(** [tx.inventoryTransaction.create ({ data })] *)
Definition create (itemId batchId ct : string) (change : JS.number) (ref : string)
  : Tx unit :=
  fun s =>
    match change with
    | JS.Finite c =>
        (mkStore (items s) (inventoryBatch s)
           (inventoryTransaction s ++ [mkTransaction itemId batchId ct c ref]),
         Returned tt)
    | _ => (s, Thrown InvalidValue)
    end.

Record AdjustBody := mkAdjustBody {
  itemId : string;
  batchId : string;
  quantityChange : JS.value;
  reason : option string
}.

Inductive Response (A : Type) :=
| Json (status : Z) (payload : A)
| JsonError (status : Z) (error : option string).
Arguments Json {A} status payload.
Arguments JsonError {A} status error.

(** [batch.quantity]: the number a stored integer is read as. *)
Definition quantityOf (batch : InventoryBatch) : JS.number :=
  JS.roundToDouble (quantity batch).

(** The body of the transaction in [adjustStock]. *)
Definition adjustStockTx (body : AdjustBody) : Tx JS.number :=
  transaction (
    found <- findUnique (batchId body) ;;
    match found with
    | None => throw BatchNotFound
    | Some batch =>
        let newQty := JS.add (quantityOf batch) (JS.parseInt (quantityChange body)) in
        if JS.isNegative newQty then throw NegativeQuantity
        else
          _ <- update (batchId body) newQty ;;
          _ <- create (itemId body) (batchId body) "ADJUSTMENT"
                 (JS.parseInt (quantityChange body))
                 (JS.strOrElse (reason body) "MANUAL") ;;
          ret newQty
    end).

(** [adjustStock (req, res)]: the new store and what [res] is sent;
    [{ success: true, newQty }] is its [newQty]. *)
Definition adjustStock (body : AdjustBody) (s : Store) : Store * Response JS.number :=
  match adjustStockTx body s with
  | (s', Returned newQty) => (s', Json 200 newQty)
  | (s', Thrown error) => (s', JsonError 400 (message error))
  end.

(** [parseInt (req.query.days) || 7] *)
Definition expiringDays (days : JS.value) : JS.number :=
  JS.orElse (JS.parseInt days) (JS.Finite 7).

(** [getExpiring (req, res)] with [req.query.days]: the batches, or a 500
    when [getExpiringBatches] throws. *)
Definition getExpiring (days : JS.value) (db : Store) (tz : TimeZone)
    (clock0 clock1 : Date) : Response (list InventoryService.BatchWithItem) :=
  let days := expiringDays days in
  match InventoryService.getExpiringBatches db tz clock0 clock1 days with
  | InventoryService.Returned batches => Json 200 batches
  | InventoryService.Thrown => JsonError 500 (Some "Failed to fetch alerts")
  end.

(** [list (req, res)] *)
Definition list_ (db : Store) : Response (list InventoryService.ItemWithStock) :=
  Json 200 (InventoryService.getAllItems db).

End InventoryController.

(** * The agent's decision pipeline

    The Python agent service ([forecaster.py], [supplier_ranker.py],
    [decision_engine.py], [main.py]) is not among the sources at hand, only
    the description of its tests is.  The definitions of this part follow the
    specification's sections 3 to 5; what the specification leaves to
    configuration or to a trained model is a parameter.  Real-valued
    quantities are rationals. *)

(** Modelled from the spec: the urgency of section 3 (the agent's sources
    are missing). *)
Inductive Urgency := NORMAL | URGENT.

Module Forecaster.

(** Modelled from the spec: SalesRecord and ForecastResult of section 3 (the
    forecaster's source is missing); a date is a day number. *)
Record SalesRecord := mkSale {
  sale_itemId : string;
  date : Z;
  quantitySold : Q
}.

(** Modelled from the spec: the method flag of a ForecastResult. *)
Inductive Method := MODEL | FALLBACK.

(** Modelled from the spec: ForecastResult of section 3. *)
Record ForecastResult := mkForecast {
  forecast_itemId : string;
  predictedDemand : Q;
  method : Method;
  horizonDays : Z;
  generatedAt : Date
}.

(** Modelled from the spec: the clamp of section 4.1 (the forecaster's
    source is missing), "any negative predicted value is clamped to 0". *)
Definition clamp (x : Q) : Q := if Qle_bool 0 x then x else 0%Q.

(** Modelled from the spec: the demand a history records, for the moving
    average of section 4.1. *)
Definition totalSold (history : list SalesRecord) : Q :=
  fold_right (fun r acc => (quantitySold r + acc)%Q) 0%Q history.

(** Modelled from the spec: the calendar days a history "sorted ascending by
    date" spans, first to last (section 4.1). *)
Definition spanDays (history : list SalesRecord) : Z :=
  match history with
  | [] => 0
  | first :: _ => date (last history first) - date first + 1
  end.

(** Modelled from the spec: the fallback of section 4.1 (the forecaster's
    source is missing), "a simple moving average over the available history
    (or a fixed minimal default, e.g. 1 unit/day, when history is empty)";
    the days of a gap count as days without demand. *)
Definition dailyAverage (history : list SalesRecord) : Q :=
  if spanDays history <=? 0 then 1%Q
  else (totalSold history / inject_Z (spanDays history))%Q.

(** Modelled from the spec: the fallback value over the horizon
    (section 4.1; section 8 gives demand as a total over the horizon). *)
Definition fallback (history : list SalesRecord) (horizonDays : Z) : Q :=
  (dailyAverage history * inject_Z horizonDays)%Q.

(** Modelled from the spec: the "number of distinct days" of a series
    (section 4.1). *)
Definition distinctDays (history : list SalesRecord) : nat :=
  List.length (nodup Z.eq_dec (map date history)).

Section Predict.
(** The policy threshold on distinct days (e.g. 14). *)
Variable minHistoryDays : nat.
(** The time-series model: its projection over the horizon, or [None] when
    fitting raises. *)
Variable fitModel : list SalesRecord -> Z -> option Q.

(** Modelled from the spec: the model path of section 4.1 and the two-path
    contract of section 9 (the forecaster's source is missing). *)
Definition tryModel (history : list SalesRecord) (horizonDays : Z) : option Q :=
  if Nat.leb minHistoryDays (distinctDays history)
  then fitModel history horizonDays
  else None.

(** Modelled from the spec: the value a path computes before the clamp, with
    the method of the path (section 4.1). *)
Definition rawDemand (history : list SalesRecord) (horizonDays : Z) : Q * Method :=
  match tryModel history horizonDays with
  | Some projected => (projected, MODEL)
  | None => (fallback history horizonDays, FALLBACK)
  end.

(** Modelled from the spec: [predict (itemId, salesHistory, horizonDays)] of
    section 4.1 (the forecaster's source is missing). *)
Definition predict (itemId : string) (history : list SalesRecord)
    (horizonDays : Z) (now : Date) : ForecastResult :=
  let '(raw, m) := rawDemand history horizonDays in
  mkForecast itemId (clamp raw) m horizonDays now.

End Predict.
End Forecaster.

Module SupplierRanker.

(** Modelled from the spec: Supplier of section 3 (the ranker's source is
    missing), with attributes that may be absent. *)
Record Supplier := mkSupplier {
  supplierId : Z;
  reliabilityScore : option Q;
  avgLeadTimeDays : option Q;
  priceIndex : option Q
}.

(** Modelled from the spec: the method flag of a SupplierScore. *)
Inductive Method := MODEL | RULE_BASED.

(** Modelled from the spec: SupplierScore of section 3. *)
Record SupplierScore := mkScore {
  score_supplierId : Z;
  score : Q;
  method : Method;
  rank : nat
}.

(** Modelled from the spec: the error [rank] signals (sections 4.2 and 7). *)
Inductive RankError := NoSuppliersFound.

(** Modelled from the spec: the order of section 4.2 (the ranker's source is
    missing), "sorted descending by score; ties broken by supplierId
    ascending".  [before a b] holds when [a] may stand before [b]. *)
Definition before (a b : SupplierScore) : bool :=
  match (score b ?= score a)%Q with
  | Lt => true
  | Eq => score_supplierId a <=? score_supplierId b
  | Gt => false
  end.

(** Modelled from the spec: "rank: 1-based position" (section 3); [number k]
    gives the first entry rank [k]. *)
Fixpoint number (k : nat) (l : list SupplierScore) : list SupplierScore :=
  match l with
  | [] => []
  | s :: l' => mkScore (score_supplierId s) (score s) (method s) k :: number (S k) l'
  end.

Section Rank.
(** The scorer: the trained model where it applies, the rule-based weighted
    score otherwise; it scores every supplier, whatever attributes are
    missing. *)
Variable scorer : Urgency -> Supplier -> Q * Method.

(** Modelled from the spec: the SupplierScore of a supplier before it is
    ranked (section 4.2). *)
Definition scoreOf (urgency : Urgency) (s : Supplier) : SupplierScore :=
  let '(x, m) := scorer urgency s in mkScore (supplierId s) x m 0.

(** Modelled from the spec: [rank (itemId, candidateSuppliers, purchaseHistory,
    urgency)] of section 4.2 (the ranker's source is missing); the purchase
    history is the scorer's business. *)
Definition rank_ (candidateSuppliers : list Supplier) (urgency : Urgency)
  : RankError + list SupplierScore :=
  match candidateSuppliers with
  | [] => inl NoSuppliersFound
  | _ => inr (number 1 (Order.sort before (map (scoreOf urgency) candidateSuppliers)))
  end.

End Rank.
End SupplierRanker.

Module DecisionEngine.

(** Modelled from the spec: Task of section 3 (the decision engine's source
    is missing); [startedAt] is in milliseconds. *)
Record Task := mkTask {
  taskId : Z;
  status : string;
  startedAt : Date;
  expectedDurationMinutes : Z;
  type : string
}.

(** Modelled from the spec: the decision types of section 3. *)
Inductive DecisionType :=
| LOW_STOCK
| BOTTLENECK
| STUCK_TASK
| EXPIRY_WARNING
| SUPPLIER_RECOMMENDATION.

(** Modelled from the spec: Decision of section 3, for the decisions about
    tasks: the payload is the task. *)
Record Decision := mkDecision {
  decision_type : DecisionType;
  urgency : Urgency;
  payload : Task;
  createdAt : Date
}.

(** Modelled from the spec: durations are given in minutes (section 3). *)
Definition msPerMinute : Z := 60000.

(** Modelled from the spec: the multiplier of the stuck-task rule, "a fixed
    multiplier (e.g., 2x)" (section 4.3). *)
Definition stuckMultiplier : Z := 2.

(** Modelled from the spec: the stuck-task rule of section 4.3 (4) and of
    section 8 (the decision engine's source is missing): a task "in progress"
    is stuck once its elapsed time is the multiplier times its expected
    duration; section 8 has the rule flag a task "at exactly 2x", so the
    boundary is inside. *)
Definition isStuck (now : Date) (t : Task) : bool :=
  String.eqb (status t) "in progress"
  && (stuckMultiplier * expectedDurationMinutes t * msPerMinute <=? now - startedAt t).

(** Modelled from the spec: the decisions of the stuck-task rule, "flagged
    STUCK_TASK, urgency URGENT" (section 4.3). *)
Definition stuckTasks (tasks : list Task) (now : Date) : list Decision :=
  map (fun t => mkDecision STUCK_TASK URGENT t now) (filter (isStuck now) tasks).

Section Evaluate.
(** The detector's sample-size floor, and the outlier test it runs over the
    recent history of durations. *)
Variable minSampleSize : nat.
Variable isOutlier : list Z -> Task -> bool.

(** Modelled from the spec: bottleneck detection of section 4.3 (3) (the
    decision engine's source is missing): skipped below the minimum sample
    size. *)
Definition bottlenecks (samples : list Z) (tasks : list Task) (now : Date)
  : list Decision :=
  if Nat.ltb (List.length samples) minSampleSize then []
  else map (fun t => mkDecision BOTTLENECK NORMAL t now)
         (filter (isOutlier samples) tasks).

(** Modelled from the spec: the task sub-evaluations of [evaluate]
    (section 4.3, 3 and 4), each run on every call. *)
Definition evaluateTasks (samples : list Z) (tasks : list Task) (now : Date)
  : list Decision :=
  bottlenecks samples tasks now ++ stuckTasks tasks now.

End Evaluate.
End DecisionEngine.

Module CycleOrchestrator.

(** Modelled from the spec: the two kinds of trigger of section 4.4 (the
    orchestrator's source is missing). *)
Inductive Source := Scheduled | Manual.

(** Modelled from the spec: a trigger of [runCycle] (section 4.4). *)
Record Trigger := mkTrigger {
  source : Source;
  trigger_id : nat
}.

(** Modelled from the spec: the configured policy for a trigger that meets
    a cycle in flight, "either queues (runs after) or is rejected"
    (section 4.4). *)
Inductive Policy := QueueAfter | RejectBusy.

(** Modelled from the spec: what a trigger is answered (section 4.4). *)
Inductive Status :=
| Started
| Queued
| CycleAlreadyRunning.

(** Modelled from the spec: the cycles that execute and the triggers that
    wait (section 5). *)
Record State := mkState {
  executing : list Trigger;
  waiting : list Trigger
}.

(** Modelled from the spec: no cycle executes, none waits. *)
Definition idle : State := mkState [] [].

(** Modelled from the spec: what the guard reacts to, a trigger or the end
    of the cycle in flight (section 5). *)
Inductive Event :=
| Arrive (t : Trigger)
| Complete.

(** Modelled from the spec: the single-flight guard of sections 4.4 and 5
    (the orchestrator's source is missing).  A trigger starts a cycle only
    when none executes; otherwise it waits or is refused, by the policy.
    When a cycle completes, the first waiting trigger starts. *)
Definition step (policy : Policy) (st : State) (e : Event) : State * option Status :=
  match e with
  | Arrive t =>
      match executing st with
      | [] => (mkState [t] (waiting st), Some Started)
      | _ :: _ =>
          match policy with
          | QueueAfter => (mkState (executing st) (waiting st ++ [t]), Some Queued)
          | RejectBusy => (st, Some CycleAlreadyRunning)
          end
      end
  | Complete =>
      match waiting st with
      | [] => (mkState [] [], None)
      | next :: rest => (mkState [next] rest, None)
      end
  end.

(** Modelled from the spec: the state after a sequence of events, and the
    statuses given on the way (section 5). *)
Fixpoint run (policy : Policy) (st : State) (events : list Event)
  : State * list Status :=
  match events with
  | [] => (st, [])
  | e :: events' =>
      let '(st', out) := step policy st e in
      let '(final, outs) := run policy st' events' in
      (final, match out with Some s => s :: outs | None => outs end)
  end.

End CycleOrchestrator.

(** * The stock of an item as the specification defines it

    "Stock is the sum of non-expired, positive-quantity batch quantities":
    these definitions follow the specification's words, to be compared with
    what [getAllItems] computes.  A batch is expired once its expiry date is
    in the past, which is how [getExpiringBatches] reads it. *)

Module Spec.

Definition notExpired (now : Date) (b : InventoryBatch) : bool :=
  now <=? expiryDate b.

Definition batchesOf (db : Store) (i : Item) : list InventoryBatch :=
  filter (fun b => String.eqb (batch_itemId b) (item_id i)) (inventoryBatch db).

Definition stock (now : Date) (db : Store) (i : Item) : Z :=
  sum_quantity
    (filter (fun b => notExpired now b && (0 <? quantity b)) (batchesOf db i)).

(** The quantity still recorded in expired batches. *)
Definition expiredStock (now : Date) (db : Store) (i : Item) : Z :=
  sum_quantity
    (filter (fun b => negb (notExpired now b) && (0 <? quantity b)) (batchesOf db i)).

End Spec.

(** * First-expired-first-out allocations

    The shape of an allocation over batches in order of expiry: batches are
    taken whole from the front, and only the last entry may take part of its
    batch. *)

Module Fefo.

Definition entryOf (b : InventoryBatch) (take : Z) : InventoryService.AllocationEntry :=
  InventoryService.mkEntry (batch_id b) take (expiryDate b) (batchNumber b).

Inductive shape : list InventoryBatch -> list InventoryService.AllocationEntry -> Prop :=
| shape_done (bs : list InventoryBatch) : shape bs []
| shape_part (b : InventoryBatch) (bs : list InventoryBatch) (take : Z) :
    0 < take < quantity b -> shape (b :: bs) [entryOf b take]
| shape_whole (b : InventoryBatch) (bs : list InventoryBatch)
    (al : list InventoryService.AllocationEntry) :
    0 < quantity b -> shape bs al -> shape (b :: bs) (entryOf b (quantity b) :: al).

Definition sum_qty (al : list InventoryService.AllocationEntry) : Z :=
  fold_right (fun e acc => InventoryService.qty e + acc) 0 al.

(** An entry takes batch [b] whole. *)
Definition takesWhole (e : InventoryService.AllocationEntry) (b : InventoryBatch) : Prop :=
  InventoryService.entry_batchId e = batch_id b
  /\ InventoryService.qty e = quantity b.

(** The positive-quantity batches of an item. *)
Definition available (db : Store) (itemId : string) : list InventoryBatch :=
  filter (fun b => String.eqb (batch_itemId b) itemId && (0 <? quantity b))
    (inventoryBatch db).

End Fefo.

(** * Concrete stores used below *)

Module Sample.

Definition rice : Item := mkItem "rice" "Rice 5kg" 10 None.

Definition oldBatch : InventoryBatch := mkBatch "b-old" "rice" "LOT-1" 5 1000.
Definition midBatch : InventoryBatch := mkBatch "b-mid" "rice" "LOT-2" 3 5000.
Definition newBatch : InventoryBatch := mkBatch "b-new" "rice" "LOT-3" 4 9000.

(** One batch, which expired at 1000; the clock below reads 2000. *)
Definition expiredStore : Store := mkStore [rice] [oldBatch] [].

(** Three batches in an order that is not the order of expiry. *)
Definition store : Store := mkStore [rice] [newBatch; oldBatch; midBatch] [].

End Sample.

(** * The number in a request

    Whether [parseInt] stops reading a decimal number at the start of
    [rest]: at the end of the string, or at a character that is no decimal
    digit and is not the [x] of a [0x] prefix; the point before a fraction
    is such a character. *)

Definition endsNumber (rest : string) : bool :=
  match rest with
  | EmptyString => true
  | String c _ =>
      match JS.digitValue c with
      | Some v => (10 <=? v) && negb (v =? 33)
      | None => true
      end
  end.

(** The sum [batch.quantity + quantityChange] for the number the request
    carries, fraction included: whether it is negative.  A number with a
    fraction lies strictly between its integer part and the next integer
    away from zero, so the sum of an integer [q] and a negative one is
    negative when [q] is at most its integer part, and the sum of [q] and a
    positive one when [q] plus its integer part is negative.  A
    [quantityChange] that is no number has no sum. *)

Module Adjustment.


(** The store after an accepted adjustment: the batch of the request holds
    [q], and the log ends with an ADJUSTMENT by [c]. *)
Definition adjusted (body : InventoryController.AdjustBody) (s : Store) (q c : Z)
  : Store :=
  mkStore (items s)
    (map (fun b =>
            if String.eqb (batch_id b) (InventoryController.batchId body)
            then with_quantity b q else b)
       (inventoryBatch s))
    (inventoryTransaction s
     ++ [mkTransaction (InventoryController.itemId body)
           (InventoryController.batchId body) "ADJUSTMENT" c
           (JS.strOrElse (InventoryController.reason body) "MANUAL")]).

End Adjustment.

(** * The agent's log, the accounts and the dashboard

    [agent.service.js], [agent.controller.js] and [auth.controller.js] of the
    backend, and the two React components of the dashboard that call the
    backend.  Library calls whose result the sources do not determine
    ([bcrypt], [jsonwebtoken], the Google client, the identifiers the
    database generates, [fetch]) are parameters. *)

Module AgentService.

Record AgentDecisionLog := mkLog {
  log_id : string;
  createdAt : Date;
  decision : string
}.

(** [orderBy: { createdAt: "desc" }] *)
Definition newest_leb (a b : AgentDecisionLog) : bool :=
  createdAt b <=? createdAt a.

(** [getDecisionLogs (limit = 10)]: [take: limit] of the logs, newest
    first.  The limit is a count; its only caller passes none. *)
Definition getDecisionLogs (agentDecisionLog : list AgentDecisionLog)
    (limit : option nat) : list AgentDecisionLog :=
  let limit := match limit with Some n => n | None => 10%nat end in
  firstn limit (Order.sort newest_leb agentDecisionLog).

End AgentService.

Module AgentController.

(** [getLogs (req, res)] *)
Definition getLogs (agentDecisionLog : list AgentService.AgentDecisionLog)
  : InventoryController.Response (list AgentService.AgentDecisionLog) :=
  let logs := AgentService.getDecisionLogs agentDecisionLog None in
  InventoryController.Json 200 logs.

End AgentController.

Module AuthController.

Record Staff := mkStaff {
  staff_id : string;
  name : string;
  email : string;
  password : string;
  role : string;
  isAvailable : bool
}.

(** What [jwt.sign] signs. *)
Record TokenPayload := mkPayload {
  payload_id : string;
  payload_email : string;
  payload_role : string
}.

(** [res.json ({ token, role, name })] with its status, or
    [res.status (n).json ({ error })]. *)
Inductive Response :=
| Session (status : Z) (token role name : string)
| Failure (status : Z) (error : string).

(** [prisma.staff.findUnique ({ where: { email } })] *)
Definition findUnique (e : string) (staff : list Staff) : option Staff :=
  find (fun u => String.eqb (email u) e) staff.

(** [prisma.staff.create ({ data })]: the row goes to the end of the table,
    with the id the database gives it. *)
Definition create (newId n e p r : string) (staff : list Staff)
  : list Staff * Staff :=
  let user := mkStaff newId n e p r true in
  ((staff ++ [user])%list, user).

Section Auth.
(** [bcrypt.compare (password, hash)] *)
Variable compare : string -> string -> bool.
(** [bcrypt.hash (password, 10)], with the salt it draws. *)
Variable hash : string -> string -> string.
(** [jwt.sign (payload, JWT_SECRET, { expiresIn: "24h" })] at a time. *)
Variable sign : TokenPayload -> Date -> string.
(** [client.verifyIdToken] and [getPayload]: the email and the name, or
    [None] when the token is refused. *)
Variable verifyIdToken : string -> option (string * string).

Definition tokenFor (user : Staff) (now : Date) : string :=
  sign (mkPayload (staff_id user) (email user) (role user)) now.

(** [login (req, res)] *)
Definition login (e p : string) (now : Date) (staff : list Staff) : Response :=
  match findUnique e staff with
  | None => Failure 401 "Invalid credentials"
  | Some user =>
      let isValid := compare p (password user) in
      if negb isValid then Failure 401 "Invalid credentials"
      else Session 200 (tokenFor user now) (role user) (name user)
  end.

(** [register (req, res)]; [salt] and [newId] are what [bcrypt] and the
    database draw. *)
Definition register (n e p : string) (salt newId : string) (now : Date)
    (staff : list Staff) : list Staff * Response :=
  match findUnique e staff with
  | Some existingUser => (staff, Failure 400 "User already exists")
  | None =>
      let hashedPassword := hash p salt in
      let '(staff', user) := create newId n e hashedPassword "STAFF" staff in
      (staff', Session 201 (tokenFor user now) (role user) (name user))
  end.

(** [googleLogin (req, res)]; [randomPassword] is
    [Math.random ().toString (36).slice (-8)]. *)
Definition googleLogin (token : string) (randomPassword salt newId : string)
    (now : Date) (staff : list Staff) : list Staff * Response :=
  match verifyIdToken token with
  | None => (staff, Failure 401 "Invalid Google Token")
  | Some (e, n) =>
      let '(staff', user) :=
        match findUnique e staff with
        | Some user => (staff, user)
        | None =>
            let hashedPassword := hash randomPassword salt in
            create newId n e hashedPassword "STAFF" staff
        end in
      (staff', Session 200 (tokenFor user now) (role user) (name user))
  end.

(** [seedAdmin ()] *)
Definition seedAdmin (salt newId : string) (staff : list Staff) : list Staff :=
  let count := List.length staff in
  if Nat.eqb count 0 then
    let hashedPassword := hash "admin123" salt in
    fst (create newId "System Admin" "admin@autokarya.com" hashedPassword "ADMIN" staff)
  else staff.

(** The calls that reach the staff table, and the table after a sequence of
    them. *)
Inductive Call :=
| Login (e p : string)
| Register (n e p salt newId : string)
| GoogleLogin (token randomPassword salt newId : string)
| SeedAdmin (salt newId : string).

Definition after (c : Call) (now : Date) (staff : list Staff) : list Staff :=
  match c with
  | Login e p => staff
  | Register n e p salt newId => fst (register n e p salt newId now staff)
  | GoogleLogin token randomPassword salt newId =>
      fst (googleLogin token randomPassword salt newId now staff)
  | SeedAdmin salt newId => seedAdmin salt newId staff
  end.

Fixpoint afterAll (calls : list Call) (now : Date) (staff : list Staff)
  : list Staff :=
  match calls with
  | [] => staff
  | c :: calls' => afterAll calls' now (after c now staff)
  end.

End Auth.
End AuthController.

(** ** The inventory page of the dashboard *)

Module InventoryView.

(** A product is a row of the answer of [GET /inventory]. *)
Definition Product := InventoryService.ItemWithStock.

Definition reorderPointOf (p : Product) : Z := reorderPoint (InventoryService.base p).

(** The cards "Total Products", "Low Stock Items" and "Out of Stock". *)
Definition totalProducts (products : list Product) : nat :=
  List.length products.

Definition lowStockItems (products : list Product) : nat :=
  List.length
    (filter (fun p => InventoryService.currentStock p <=? reorderPointOf p) products).

Definition outOfStock (products : list Product) : nat :=
  List.length (filter (fun p => InventoryService.currentStock p =? 0) products).

(** The dot in the stock column. *)
Inductive Dot := Red | Amber | Emerald.

Definition stockDot (product : Product) : Dot :=
  if InventoryService.currentStock product =? 0 then Red
  else if InventoryService.currentStock product <=? reorderPointOf product then Amber
  else Emerald.

End InventoryView.

(** ** The chat widget of the dashboard *)

Module AgentChatWidget.

(** [String.prototype.trim]: white space off both ends. *)
Fixpoint trimEnd (s : string) : string :=
  match s with
  | EmptyString => EmptyString
  | String c r =>
      match trimEnd r with
      | EmptyString => if JS.isWhiteSpace c then EmptyString else String c EmptyString
      | r' => String c r'
      end
  end.

Definition trim (s : string) : string := trimEnd (JS.trimStart s).

Inductive MessageType := user | agent | error.

(** The text of an agent message is [data.response], which the answer may
    lack. *)
Record Message := mkMessage {
  type : MessageType;
  text : option string
}.

Record State := mkState {
  query : string;
  messages : list Message;
  loading : bool
}.

(** [useState ('')], [useState ([])], [useState (false)] *)
Definition initial : State := mkState "" [] false.

(** The body of the POST. *)
Record ChatRequest := mkRequest {
  request_query : string;
  history : list Message
}.

(** What [fetch] and [response.json ()] give: [data.response], or a throw. *)
Inductive Outcome :=
| Answered (response : option string)
| Threw.

(** [sendQuery ()] run to its end on the state it was called in: the state
    it leaves and the request it sent, if any. *)
Definition sendQuery (outcome : Outcome) (st : State) : State * option ChatRequest :=
  if String.eqb (trim (query st)) "" then (st, None)
  else
    let userMessage := mkMessage user (Some (query st)) in
    let sent := mkRequest (query st) (messages st) in
    let messages1 := (messages st ++ [userMessage])%list in
    match outcome with
    | Answered response =>
        (mkState "" (messages1 ++ [mkMessage agent response])%list false, Some sent)
    | Threw =>
        (mkState (query st)
           (messages1
            ++ [mkMessage error (Some "Failed to get response from AI agent")])%list
           false,
         Some sent)
    end.

(** What the user does: type or pick a quick action ([setQuery]), or send. *)
Inductive Action :=
| SetQuery (q : string)
| SendQuery (outcome : Outcome).

Definition act (a : Action) (st : State) : State :=
  match a with
  | SetQuery q => mkState q (messages st) (loading st)
  | SendQuery outcome => fst (sendQuery outcome st)
  end.

Fixpoint actAll (actions : list Action) (st : State) : State :=
  match actions with
  | [] => st
  | a :: actions' => actAll actions' (act a st)
  end.

(** A conversation: each user message is followed by its answer or by the
    error note. *)
Inductive conversation : list Message -> Prop :=
| conversation_nil : conversation []
| conversation_turn (q : string) (reply : Message) (l : list Message) :
    trim q <> "" ->
    type reply <> user ->
    conversation l ->
    conversation (mkMessage user (Some q) :: reply :: l).

End AgentChatWidget.

(** * Properties of the backend *)

(** ** Sorting *)

Section OrderFacts.
Context {A : Type}.
Variable leb : A -> A -> bool.

Lemma insert_perm (x : A) (l : list A) :
  Permutation (Order.insert leb x l) (x :: l).
Proof.
  induction l as [|y l IH]; simpl.
  - apply Permutation_refl.
  - destruct (leb x y).
    + apply Permutation_refl.
    + apply perm_trans with (y :: x :: l).
      * now apply perm_skip.
      * apply perm_swap.
Qed.

Lemma sort_perm (l : list A) : Permutation (Order.sort leb l) l.
Proof.
  induction l as [|x l IH]; simpl.
  - apply perm_nil.
  - apply perm_trans with (x :: Order.sort leb l).
    + apply insert_perm.
    + now apply perm_skip.
Qed.

Lemma sort_In (x : A) (l : list A) : In x (Order.sort leb l) <-> In x l.
Proof.
  split; apply Permutation_in;
    [apply sort_perm | apply Permutation_sym, sort_perm].
Qed.

Lemma sort_length (l : list A) : List.length (Order.sort leb l) = List.length l.
Proof. apply Permutation_length, sort_perm. Qed.

Hypothesis leb_total : forall x y, leb x y = false -> leb y x = true.
Hypothesis leb_trans : forall x y z, leb x y = true -> leb y z = true -> leb x z = true.

Lemma insert_sorted (x : A) (l : list A) :
  StronglySorted (fun a b => leb a b = true) l ->
  StronglySorted (fun a b => leb a b = true) (Order.insert leb x l).
Proof.
  induction 1 as [|y l Hs IH Hall]; simpl.
  - repeat constructor.
  - destruct (leb x y) eqn:E.
    + constructor.
      * now constructor.
      * constructor; [exact E|].
        eapply Forall_impl; [|exact Hall].
        intros z Hz. simpl in *. eauto.
    + constructor; [exact IH|].
      apply Permutation_Forall with (x :: l).
      * apply Permutation_sym, insert_perm.
      * constructor; [now apply leb_total | exact Hall].
Qed.

Lemma sort_sorted (l : list A) :
  StronglySorted (fun a b => leb a b = true) (Order.sort leb l).
Proof.
  induction l as [|x l IH]; simpl.
  - constructor.
  - now apply insert_sorted.
Qed.

End OrderFacts.

Lemma StronglySorted_weaken {A : Type} (R R' : A -> A -> Prop) (l : list A) :
  (forall a b, R a b -> R' a b) -> StronglySorted R l -> StronglySorted R' l.
Proof.
  intros Himp. induction 1 as [|a l Hs IH Hall]; constructor; auto.
  eapply Forall_impl; [|exact Hall]. auto.
Qed.

Lemma orderByExpiryAsc_sorted (l : list InventoryBatch) :
  StronglySorted (fun a b => expiryDate a <= expiryDate b) (orderByExpiryAsc l).
Proof.
  unfold orderByExpiryAsc.
  apply StronglySorted_weaken with (R := fun a b => expiry_leb a b = true).
  - unfold expiry_leb. intros; lia.
  - apply sort_sorted; unfold expiry_leb; intros; lia.
Qed.

Lemma orderByExpiryAsc_perm (l : list InventoryBatch) :
  Permutation (orderByExpiryAsc l) l.
Proof. apply sort_perm. Qed.

(** ** Sums of quantities *)

Lemma fold_quantity (l : list InventoryBatch) (a : Z) :
  fold_left (fun sum b => sum + quantity b) l a = a + sum_quantity l.
Proof.
  unfold sum_quantity. revert a.
  induction l as [|b l IH]; intros a; simpl.
  - lia.
  - rewrite (IH (a + quantity b)), (IH (quantity b)). lia.
Qed.

Lemma sum_quantity_cons (b : InventoryBatch) (l : list InventoryBatch) :
  sum_quantity (b :: l) = quantity b + sum_quantity l.
Proof.
  unfold sum_quantity at 1. simpl. rewrite fold_quantity. lia.
Qed.

Lemma sum_quantity_perm (l l' : list InventoryBatch) :
  Permutation l l' -> sum_quantity l = sum_quantity l'.
Proof.
  induction 1; rewrite ?sum_quantity_cons; lia.
Qed.

Lemma sum_quantity_positive (l : list InventoryBatch) :
  Forall (fun b => 0 < quantity b) l -> 0 <= sum_quantity l.
Proof.
  induction 1; rewrite ?sum_quantity_cons; [reflexivity | lia].
Qed.

Lemma filter_and {A : Type} (p q : A -> bool) (l : list A) :
  filter q (filter p l) = filter (fun x => p x && q x) l.
Proof.
  induction l as [|x l IH]; simpl; [reflexivity|].
  destruct (p x); simpl; [destruct (q x)|]; now rewrite IH.
Qed.

(** ** [getAllItems] *)

Lemma getAllItems_In (db : Store) (r : InventoryService.ItemWithStock) :
  In r (InventoryService.getAllItems db) ->
  In (InventoryService.base r) (items db)
  /\ deletedAt (InventoryService.base r) = None
  /\ InventoryService.currentStock r
     = sum_quantity (InventoryService.inventoryBatches db (InventoryService.base r)).
Proof.
  unfold InventoryService.getAllItems. intros H.
  apply in_map_iff in H. destruct H as [i [<- Hi]].
  apply filter_In in Hi. destruct Hi as [Hin Hdel]. simpl.
  split; [exact Hin | split].
  - now destruct (deletedAt i).
  - reflexivity.
Qed.

(** C1, as stated, fails: the store holds one batch of 5 units that expired
    at 1000; at 2000 the item has no stock that is not expired, and
    [getAllItems] reports 5. *)
Lemma getAllItems_counts_expired_batches :
  ~ (forall (db : Store) (now : Date) (r : InventoryService.ItemWithStock),
       In r (InventoryService.getAllItems db) ->
       InventoryService.currentStock r = Spec.stock now db (InventoryService.base r)).
Proof.
  intros H.
  specialize (H Sample.expiredStore 2000
                (InventoryService.mkItemWithStock Sample.rice 5)).
  simpl in H. discriminate H. now left.
Qed.

(** C1, amended: for every item [getAllItems] returns (the items that are not
    deleted), [currentStock] is the sum of the quantities of all its
    positive-quantity batches, expired or not: the specification's stock plus
    what expired batches still hold. *)
Theorem getAllItems_currentStock
    (db : Store) (now : Date) (r : InventoryService.ItemWithStock) :
  In r (InventoryService.getAllItems db) ->
  InventoryService.currentStock r
  = sum_quantity
      (filter (fun b => 0 <? quantity b) (Spec.batchesOf db (InventoryService.base r)))
  /\ InventoryService.currentStock r
     = Spec.stock now db (InventoryService.base r)
       + Spec.expiredStock now db (InventoryService.base r).
Proof.
  intros H. apply getAllItems_In in H. destruct H as [_ [_ ->]].
  unfold InventoryService.inventoryBatches, Spec.stock, Spec.expiredStock,
    Spec.batchesOf.
  rewrite !filter_and. split; [reflexivity|].
  induction (inventoryBatch db) as [|b l IH]; simpl; [reflexivity|].
  destruct (String.eqb (batch_itemId b) (item_id (InventoryService.base r)));
    simpl; [|exact IH].
  destruct (Spec.notExpired now b), (0 <? quantity b); simpl;
    rewrite ?sum_quantity_cons; lia.
Qed.

Lemma getAllItems_currentStock_witness :
  InventoryService.currentStock (InventoryService.mkItemWithStock Sample.rice 12)
  = Spec.stock 2000 Sample.store Sample.rice
    + Spec.expiredStock 2000 Sample.store Sample.rice.
Proof.
  apply (getAllItems_currentStock Sample.store 2000
           (InventoryService.mkItemWithStock Sample.rice 12)).
  simpl. left. reflexivity.
Defined.

(** ** Numbers *)

Lemma roundToDouble_safe (z : Z) : JS.safe z -> JS.roundToDouble z = JS.Finite z.
Proof.
  unfold JS.safe, JS.roundToDouble. intros H. apply Z.ltb_lt in H.
  cbv zeta. now rewrite H.
Qed.

(** Rounding keeps the sign. *)
Lemma isNegative_roundToDouble (z : Z) :
  JS.isNegative (JS.roundToDouble z) = (z <? 0).
Proof.
  unfold JS.roundToDouble. cbv zeta.
  destruct (Z.ltb_spec (Z.abs z) (2 ^ 53)) as [H|H]; [reflexivity|].
  set (e := Z.log2 (Z.abs z) - 52).
  set (q := Z.abs z / 2 ^ e).
  match goal with
  | |- context [if ?c then q + 1 else q] => set (q' := if c then q + 1 else q)
  end.
  destruct (2 ^ 1024 <=? q' * 2 ^ e); [reflexivity|].
  assert (H53 : 0 < 2 ^ 53) by (apply Z.pow_pos_nonneg; lia).
  assert (Ha : 0 < Z.abs z) by lia.
  destruct (Z.log2_spec _ Ha) as [Hlo Hhi].
  assert (Hlog : 53 <= Z.log2 (Z.abs z)).
  { destruct (Z.le_gt_cases 53 (Z.log2 (Z.abs z))) as [Hl|Hl]; [exact Hl|].
    exfalso.
    assert (2 ^ Z.succ (Z.log2 (Z.abs z)) <= 2 ^ 53)
      by (apply Z.pow_le_mono_r; lia).
    lia. }
  assert (He : 0 < 2 ^ e) by (apply Z.pow_pos_nonneg; subst e; lia).
  assert (Hq : 0 < q).
  { subst q. apply Z.div_str_pos. split; [exact He|].
    assert (2 ^ e <= 2 ^ Z.log2 (Z.abs z))
      by (apply Z.pow_le_mono_r; subst e; lia).
    lia. }
  assert (Hq' : 0 < q') by (subst q'; destruct (_ || _); lia).
  assert (Hm : 0 < q' * 2 ^ e) by now apply Z.mul_pos_pos.
  cbn [JS.isNegative].
  destruct z as [|p|p]; cbn [Z.sgn].
  - reflexivity.
  - destruct (Z.ltb_spec (1 * (q' * 2 ^ e)) 0); [lia | reflexivity].
  - destruct (Z.ltb_spec (-1 * (q' * 2 ^ e)) 0); [reflexivity | lia].
Qed.




(** ** [getExpiringBatches] *)

Lemma map_batch_includeItem (db : Store) (l : list InventoryBatch) :
  map InventoryService.batch (map (InventoryService.includeItem db) l) = l.
Proof.
  induction l as [|b l IH]; simpl; [reflexivity | now rewrite IH].
Qed.

Lemma TimeClip_Some (time : Z) (d : Date) :
  TimeClip time = Some d -> d = time /\ Z.abs time <= maxTime.
Proof.
  unfold TimeClip. destruct (Z.leb_spec (Z.abs time) maxTime); [|discriminate].
  intros [= <-]. auto.
Qed.

(** In a zone with one offset, [setDate] adds days of 24 hours. *)
Lemma addDays_fixed_offset (tz : TimeZone) (offset : Z) (d : Date) (n : Z) :
  (forall t, offsetAtUTC tz t = offset /\ offsetAtLocal tz t = offset) ->
  addDays tz d (JS.Finite n) = TimeClip (d + n * msPerDay).
Proof.
  intros H. unfold addDays. cbv zeta.
  destruct (H d) as [-> _].
  destruct (H (d + offset + n * msPerDay)) as [_ ->].
  f_equal. lia.
Qed.

(** [getExpiringBatches] returns when [targetDate] is a date, and then what
    the query finds. *)
Lemma getExpiringBatches_Returned (db : Store) (tz : TimeZone)
    (clock0 clock1 : Date) (days : JS.number)
    (batches : list InventoryService.BatchWithItem) :
  InventoryService.getExpiringBatches db tz clock0 clock1 days
  = InventoryService.Returned batches
  <-> exists targetDate,
        addDays tz clock0 days = Some targetDate
        /\ batches
           = map (InventoryService.includeItem db)
               (orderByExpiryAsc
                  (filter (InventoryService.expiringWhere targetDate clock1)
                     (inventoryBatch db))).
Proof.
  unfold InventoryService.getExpiringBatches.
  destruct (addDays tz clock0 days) as [targetDate|]; split.
  - intros [= <-]. now exists targetDate.
  - intros [t [[= <-] ->]]. reflexivity.
  - discriminate.
  - intros [t [H _]]. discriminate H.
Qed.

Lemma getExpiringBatches_Thrown (db : Store) (tz : TimeZone)
    (clock0 clock1 : Date) (days : JS.number) :
  InventoryService.getExpiringBatches db tz clock0 clock1 days
  = InventoryService.Thrown
  <-> addDays tz clock0 days = None.
Proof.
  unfold InventoryService.getExpiringBatches.
  destruct (addDays tz clock0 days); split; congruence.
Qed.

(** The batches the query of [getExpiringBatches] finds. *)
Lemma expiring_In (db : Store) (targetDate clock1 : Date) (b : InventoryBatch) :
  In b (orderByExpiryAsc
          (filter (InventoryService.expiringWhere targetDate clock1)
             (inventoryBatch db)))
  <-> In b (inventoryBatch db)
      /\ 0 < quantity b
      /\ clock1 <= expiryDate b <= targetDate.
Proof.
  unfold orderByExpiryAsc. rewrite sort_In, filter_In.
  unfold InventoryService.expiringWhere.
  rewrite !andb_true_iff, Z.ltb_lt, !Z.leb_le. tauto.
Qed.

(** C2, as stated, fails: not every window gives a list.  A window of
    200,000,000 days ends beyond the last time value, the target date is an
    Invalid Date and the call throws, while the batches of the sample store
    lie between now and now plus that many days. *)
Lemma getExpiringBatches_throws_on_a_far_window :
  ~ (forall (db : Store) (now : Date) (days : Z),
       exists batches,
         InventoryService.getExpiringBatches db UTC now now (JS.Finite days)
         = InventoryService.Returned batches
         /\ (forall b,
               In b (map InventoryService.batch batches)
               <-> In b (inventoryBatch db)
                   /\ 0 < quantity b
                   /\ now <= expiryDate b <= now + days * msPerDay)
         /\ StronglySorted (fun a b => expiryDate a <= expiryDate b)
              (map InventoryService.batch batches)).
Proof.
  intros H.
  destruct (H Sample.store 0 200000000) as [batches [E _]].
  vm_compute in E. discriminate E.
Qed.

(** C2, amended: when the target date (now plus [days] days of the local
    calendar, which are days of 24 hours in a zone with one offset) is a
    time value, the batches [getExpiringBatches (days)] returns are exactly
    the rows of the batch table with a positive quantity whose expiry date
    lies between now (the clock the query reads) and the target date, both
    ends included, each once, in ascending order of expiry date; expired
    batches are below the lower bound.  When the target date is beyond the
    time values, or [days] is not finite, the call throws. *)
Theorem getExpiringBatches_exact
    (db : Store) (tz : TimeZone) (clock0 clock1 : Date) (days : JS.number) :
  (forall targetDate,
     addDays tz clock0 days = Some targetDate ->
     exists batches,
       InventoryService.getExpiringBatches db tz clock0 clock1 days
       = InventoryService.Returned batches
       /\ Permutation
            (map InventoryService.batch batches)
            (filter (fun b => (0 <? quantity b)
                              && (clock1 <=? expiryDate b)
                              && (expiryDate b <=? targetDate))
               (inventoryBatch db))
       /\ (forall b,
             In b (map InventoryService.batch batches)
             <-> In b (inventoryBatch db)
                 /\ 0 < quantity b
                 /\ clock1 <= expiryDate b <= targetDate)
       /\ StronglySorted (fun a b => expiryDate a <= expiryDate b)
            (map InventoryService.batch batches))
  /\ (addDays tz clock0 days = None ->
      InventoryService.getExpiringBatches db tz clock0 clock1 days
      = InventoryService.Thrown)
  /\ ((forall n, days <> JS.Finite n) -> addDays tz clock0 days = None)
  /\ (forall n offset,
        days = JS.Finite n ->
        (forall t, offsetAtUTC tz t = offset /\ offsetAtLocal tz t = offset) ->
        addDays tz clock0 days
        = if Z.abs (clock0 + n * msPerDay) <=? maxTime
          then Some (clock0 + n * msPerDay) else None).
Proof.
  split; [|split; [|split]].
  - intros targetDate Ht. eexists. split.
    + apply getExpiringBatches_Returned. exists targetDate. split; [exact Ht|reflexivity].
    + rewrite map_batch_includeItem. split; [|split].
      * eapply perm_trans; [apply orderByExpiryAsc_perm|].
        erewrite filter_ext; [apply Permutation_refl|].
        intros b. unfold InventoryService.expiringWhere.
        destruct (0 <? quantity b), (clock1 <=? expiryDate b),
          (expiryDate b <=? targetDate); reflexivity.
      * intros b. apply expiring_In.
      * apply orderByExpiryAsc_sorted.
  - apply getExpiringBatches_Thrown.
  - intros H. destruct days as [| |n]; try reflexivity. now elim (H n).
  - intros n offset -> Hz. now apply addDays_fixed_offset with (offset := offset).
Qed.

(** A week from the epoch in UTC: the three batches of the sample store are
    returned. *)
Lemma getExpiringBatches_exact_witness :
  exists batches,
    InventoryService.getExpiringBatches Sample.store UTC 0 0 (JS.Finite 7)
    = InventoryService.Returned batches
    /\ Permutation
         (map InventoryService.batch batches)
         (filter (fun b => (0 <? quantity b)
                           && (0 <=? expiryDate b)
                           && (expiryDate b <=? 604800000))
            (inventoryBatch Sample.store))
    /\ (forall b,
          In b (map InventoryService.batch batches)
          <-> In b (inventoryBatch Sample.store)
              /\ 0 < quantity b
              /\ 0 <= expiryDate b <= 604800000)
    /\ StronglySorted (fun a b => expiryDate a <= expiryDate b)
         (map InventoryService.batch batches).
Proof.
  apply (getExpiringBatches_exact Sample.store UTC 0 0 (JS.Finite 7)).
  reflexivity.
Defined.

(** ** [parseInt] reads back the digits of an integer *)

Lemma of_uint_acc_horner (d : Decimal.uint) (acc : positive) :
  Z.pos (Pos.of_uint_acc d acc) = JS.horner d (Z.pos acc).
Proof.
  revert acc. induction d; intros acc; cbn [Pos.of_uint_acc JS.horner];
    [reflexivity | ..]; rewrite IHd; f_equal; lia.
Qed.

Lemma horner_of_uint (d : Decimal.uint) : JS.horner d 0 = Z.of_uint d.
Proof.
  unfold Z.of_uint.
  induction d; cbn [JS.horner Pos.of_uint]; [reflexivity | exact IHd | ..];
    cbn [Z.of_N]; rewrite of_uint_acc_horner; reflexivity.
Qed.

Lemma parseDigits_stop (rest : string) (a : Z) :
  endsNumber rest = true -> JS.parseDigits 10 rest (Some a) = Some a.
Proof.
  destruct rest as [|c r]; simpl; [reflexivity|].
  destruct (JS.digitValue c) as [v|]; [|reflexivity].
  rewrite andb_true_iff, Z.leb_le. intros [Hv _].
  destruct (Z.ltb_spec v 10); [lia | reflexivity].
Qed.

Lemma parseDigits_uint_then (d : Decimal.uint) (rest : string) (a : Z) :
  JS.parseDigits 10 (NilEmpty.string_of_uint d ++ rest) (Some a)
  = JS.parseDigits 10 rest (Some (JS.horner d a)).
Proof.
  revert a. induction d; intros a;
    cbn [NilEmpty.string_of_uint JS.parseDigits JS.horner String.append];
    [reflexivity | ..]; digit_value; cbn match; rewrite IHd; reflexivity.
Qed.

Lemma parseDigits_first_then (d : Decimal.uint) (rest : string) :
  d <> Decimal.Nil ->
  JS.parseDigits 10 (NilEmpty.string_of_uint d ++ rest) None
  = JS.parseDigits 10 rest (Some (Z.of_uint d)).
Proof.
  intros Hd. rewrite <- horner_of_uint.
  destruct d; [congruence | ..];
    cbn [NilEmpty.string_of_uint JS.parseDigits JS.horner String.append];
    digit_value; cbn match; rewrite parseDigits_uint_then; reflexivity.
Qed.

Lemma stripPrefix_plain (c : ascii) (r : string) :
  c <> "x"%char -> c <> "X"%char ->
  JS.stripPrefix (String "0" (String c r)) = (10, String "0" (String c r)).
Proof.
  intros Hx HX.
  destruct c as [[] [] [] [] [] [] [] []]; try reflexivity; congruence.
Qed.

Lemma endsNumber_not_x (c : ascii) (r : string) :
  endsNumber (String c r) = true -> c <> "x"%char /\ c <> "X"%char.
Proof.
  intros H. split; intros ->; discriminate H.
Qed.

(** The digits of a number start with no white space, sign or [0x]. *)
Lemma digits_plain_then (d : Decimal.uint) (rest : string) :
  d <> Decimal.Nil -> endsNumber rest = true ->
  JS.trimStart (NilEmpty.string_of_uint d ++ rest)
  = NilEmpty.string_of_uint d ++ rest
  /\ JS.stripSign (NilEmpty.string_of_uint d ++ rest)
     = (1, NilEmpty.string_of_uint d ++ rest)
  /\ JS.stripPrefix (NilEmpty.string_of_uint d ++ rest)
     = (10, NilEmpty.string_of_uint d ++ rest).
Proof.
  intros Hd Hrest. destruct d as [|l|l|l|l|l|l|l|l|l|l]; [congruence | ..];
    try (repeat split; reflexivity).
  destruct l; try (repeat split; reflexivity).
  cbn [NilEmpty.string_of_uint String.append].
  destruct rest as [|c r]; [repeat split; reflexivity|].
  destruct (endsNumber_not_x c r Hrest) as [Hx HX].
  repeat split; try reflexivity. now apply stripPrefix_plain.
Qed.

Lemma trimStart_white (ws s : string) :
  Forall (fun c => JS.isWhiteSpace c = true) (list_ascii_of_string ws) ->
  JS.trimStart (ws ++ s) = JS.trimStart s.
Proof.
  induction ws as [|c ws IH]; simpl; intros H; [reflexivity|].
  inversion H as [|? ? Hc Hws]; subst. rewrite Hc. now apply IH.
Qed.

Lemma parseIntString_steps (s s1 s2 : string) (sign R : Z) :
  JS.stripSign (JS.trimStart s) = (sign, s1) ->
  JS.stripPrefix s1 = (R, s2) ->
  JS.parseIntString s
  = match JS.parseDigits R s2 None with
    | Some mathInt => JS.roundToDouble (sign * mathInt)
    | None => JS.NaN
    end.
Proof. unfold JS.parseIntString. now intros -> ->. Qed.

Lemma parseIntString_uint_then (ws : string) (d : Decimal.uint) (rest : string) :
  Forall (fun c => JS.isWhiteSpace c = true) (list_ascii_of_string ws) ->
  d <> Decimal.Nil -> endsNumber rest = true ->
  JS.parseIntString (ws ++ NilEmpty.string_of_uint d ++ rest)
  = JS.roundToDouble (Z.of_uint d)
  /\ JS.parseIntString (ws ++ String "-" (NilEmpty.string_of_uint d ++ rest))
     = JS.roundToDouble (- Z.of_uint d).
Proof.
  intros Hws Hd Hrest.
  destruct (digits_plain_then d rest Hd Hrest) as [Ht [Hs Hp]].
  split.
  - rewrite (parseIntString_steps _ (NilEmpty.string_of_uint d ++ rest)
               (NilEmpty.string_of_uint d ++ rest) 1 10).
    + rewrite parseDigits_first_then, parseDigits_stop by assumption.
      f_equal; lia.
    + rewrite trimStart_white by exact Hws. now rewrite Ht.
    + exact Hp.
  - rewrite (parseIntString_steps _ (NilEmpty.string_of_uint d ++ rest)
               (NilEmpty.string_of_uint d ++ rest) (-1) 10).
    + rewrite parseDigits_first_then, parseDigits_stop by assumption.
      f_equal; lia.
    + rewrite trimStart_white by exact Hws. reflexivity.
    + exact Hp.
Qed.

Lemma digits_cases (z : Z) :
  exists d, d <> Decimal.Nil
    /\ ((0 <= z /\ JS.digits z = NilEmpty.string_of_uint d /\ z = Z.of_uint d)
        \/ (z < 0 /\ JS.digits z = String "-" (NilEmpty.string_of_uint d)
            /\ z = - Z.of_uint d)).
Proof.
  unfold JS.digits.
  destruct z as [|p|p]; cbn [Z.to_int NilZero.string_of_int].
  - exists (Decimal.D0 Decimal.Nil). split; [discriminate|].
    left. repeat split; reflexivity || lia.
  - exists (Pos.to_uint p). split; [apply DecimalPos.Unsigned.to_uint_nonnil|].
    left. split; [lia|]. split.
    + unfold NilZero.string_of_uint.
      pose proof (DecimalPos.Unsigned.to_uint_nonnil p).
      now destruct (Pos.to_uint p).
    + unfold Z.of_uint. now rewrite DecimalPos.Unsigned.of_to.
  - exists (Pos.to_uint p). split; [apply DecimalPos.Unsigned.to_uint_nonnil|].
    right. split; [lia|]. split.
    + unfold NilZero.string_of_uint.
      pose proof (DecimalPos.Unsigned.to_uint_nonnil p).
      now destruct (Pos.to_uint p).
    + unfold Z.of_uint. now rewrite DecimalPos.Unsigned.of_to.
Qed.

(** After white space, [parseInt] of the digits of [z] and of whatever
    follows them is the double nearest to [z]. *)
Lemma parseIntString_digits (ws : string) (z : Z) (rest : string) :
  Forall (fun c => JS.isWhiteSpace c = true) (list_ascii_of_string ws) ->
  endsNumber rest = true ->
  JS.parseIntString (ws ++ JS.digits z ++ rest) = JS.roundToDouble z.
Proof.
  intros Hws Hrest.
  destruct (digits_cases z) as [d [Hd [[_ [-> ->]]|[_ [-> ->]]]]].
  - now apply parseIntString_uint_then.
  - cbn [String.append]. now apply parseIntString_uint_then.
Qed.

Lemma append_empty (s : string) : s ++ "" = s.
Proof. induction s as [|c s IH]; simpl; [reflexivity | now rewrite IH]. Qed.



(** ** [getExpiring] *)

(** C10: the window [getExpiring] passes to [getExpiringBatches] is 7 days
    when the [days] query parameter is absent, when [parseInt] finds no
    number in it, and when it parses to 0; a value that parses to any other
    number is the window.  The answer is what [getExpiringBatches] returns
    for that window, or a 500 when it throws. *)
Theorem getExpiring_window
    (days : JS.value) (db : Store) (tz : TimeZone) (clock0 clock1 : Date) :
  InventoryController.getExpiring days db tz clock0 clock1
  = match InventoryService.getExpiringBatches db tz clock0 clock1
            (InventoryController.expiringDays days) with
    | InventoryService.Returned batches => InventoryController.Json 200 batches
    | InventoryService.Thrown =>
        InventoryController.JsonError 500 (Some "Failed to fetch alerts")
    end
  /\ InventoryController.expiringDays JS.undefined = JS.Finite 7
  /\ (JS.parseInt days = JS.NaN ->
      InventoryController.expiringDays days = JS.Finite 7)
  /\ (JS.parseInt days = JS.Finite 0 ->
      InventoryController.expiringDays days = JS.Finite 7)
  /\ (JS.parseInt days <> JS.NaN -> JS.parseInt days <> JS.Finite 0 ->
      InventoryController.expiringDays days = JS.parseInt days)
  /\ (InventoryController.expiringDays days <> JS.Finite 7 ->
      JS.parseInt days <> JS.NaN /\ JS.parseInt days <> JS.Finite 0
      /\ InventoryController.expiringDays days = JS.parseInt days).
Proof.
  unfold InventoryController.getExpiring, InventoryController.expiringDays, JS.orElse.
  split; [reflexivity|]. split; [reflexivity|].
  destruct (JS.parseInt days) as [|s|n].
  - split; [reflexivity|]. split; [discriminate|]. split.
    + intros H. now elim H.
    + intros H. now elim H.
  - split; [discriminate|]. split; [discriminate|]. split; [reflexivity|].
    intros _. repeat split; discriminate.
  - destruct (Z.eqb_spec n 0) as [->|Hn].
    + split; [reflexivity|]. split; [reflexivity|]. split.
      * intros _ H. now elim H.
      * intros H. now elim H.
    + split; [discriminate|]. split; [congruence|]. split; [reflexivity|].
      intros _. repeat split; congruence.
Qed.

(** Query strings at which the window can be read off; the last is read as
    the double nearest to it. *)
Lemma expiringDays_examples :
  map InventoryController.expiringDays
    [JS.undefined; JS.Str ""; JS.Str "abc"; JS.Str "0"; JS.Str "30";
     JS.Str " 14days"; JS.Str "-3"; JS.Str "0x10"; JS.Str "7";
     JS.Str "9007199254740993"]
  = map JS.Finite [7; 7; 7; 7; 30; 14; -3; 16; 7; 9007199254740992].
Proof. vm_compute. reflexivity. Qed.

(** A window that leaves the time values is answered with a 500. *)
Lemma getExpiring_examples :
  InventoryController.getExpiring (JS.Str "200000000") Sample.store UTC 0 0
  = InventoryController.JsonError 500 (Some "Failed to fetch alerts")
  /\ InventoryController.getExpiring (JS.Str "-200000000") Sample.store UTC 0 0
     = InventoryController.JsonError 500 (Some "Failed to fetch alerts")
  /\ InventoryController.getExpiring (JS.Str "-3") Sample.store UTC 2000 2001
     = InventoryController.Json 200 [].
Proof. vm_compute. repeat split; reflexivity. Qed.

Lemma getExpiring_window_witness :
  InventoryController.expiringDays (JS.Str "30") = JS.parseInt (JS.Str "30").
Proof.
  apply (getExpiring_window (JS.Str "30") Sample.store UTC 0 0);
    vm_compute; discriminate.
Defined.

(** ** [adjustStock] *)


(** A transaction that throws leaves the store as it found it. *)
Lemma transaction_rollback {A : Type}
    (body : InventoryController.Tx A) (s s' : Store) (e : InventoryController.Error) :
  InventoryController.transaction body s = (s', InventoryController.Thrown e) ->
  s' = s.
Proof.
  unfold InventoryController.transaction.
  destruct (body s) as [s1 [a|e1]]; intros [= <- _]; reflexivity.
Qed.

(** Whatever the request, a 400 answer comes with an unchanged store. *)
Lemma adjustStock_failure_keeps_store
    (body : InventoryController.AdjustBody) (s s' : Store)
    (status : Z) (error : option string) :
  InventoryController.adjustStock body s
  = (s', InventoryController.JsonError status error) ->
  status = 400 /\ s' = s.
Proof.
  unfold InventoryController.adjustStock.
  destruct (InventoryController.adjustStockTx body s) as [s1 [n|e]] eqn:E;
    intros [= <- <- _].
  split; [reflexivity|].
  unfold InventoryController.adjustStockTx in E.
  now apply transaction_rollback in E.
Qed.

(** [adjustStock] on a batch that exists, by what the sum comes to. *)
Lemma adjustStock_found
    (body : InventoryController.AdjustBody) (s : Store) (batch : InventoryBatch) :
  find (fun b => String.eqb (batch_id b) (InventoryController.batchId body))
    (inventoryBatch s) = Some batch ->
  InventoryController.adjustStock body s
  = match JS.add (InventoryController.quantityOf batch)
            (JS.parseInt (InventoryController.quantityChange body)) with
    | JS.Finite q =>
        if q <? 0
        then (s, InventoryController.JsonError 400
                   (Some "Resulting quantity cannot be negative"))
        else
          match JS.parseInt (InventoryController.quantityChange body) with
          | JS.Finite c => (Adjustment.adjusted body s q c, InventoryController.Json 200 (JS.Finite q))
          | _ => (s, InventoryController.JsonError 400 None)
          end
    | JS.Infinity true =>
        (s, InventoryController.JsonError 400
              (Some "Resulting quantity cannot be negative"))
    | _ => (s, InventoryController.JsonError 400 None)
    end.
Proof.
  intros Hf.
  unfold InventoryController.adjustStock, InventoryController.adjustStockTx,
    InventoryController.transaction, InventoryController.bind,
    InventoryController.findUnique.
  rewrite Hf.
  destruct (JS.add (InventoryController.quantityOf batch)
              (JS.parseInt (InventoryController.quantityChange body)))
    as [|[|]|q]; cbn [JS.isNegative]; try reflexivity.
  destruct (q <? 0); [reflexivity|].
  destruct (JS.parseInt (InventoryController.quantityChange body)); reflexivity.
Qed.


(** What [adjustStock] does with requests on the batch "b-old" of 5 units:
    -5.9 is read as -5, the number 1e21 (which prints as 1e+21) and the
    string "1e3" as 1, the number 5e-7 as 5, [null] as [NaN]. *)
Lemma adjustStock_examples :
  let request v := InventoryController.mkAdjustBody "rice" "b-old" v None in
  let answer v := snd (InventoryController.adjustStock (request v) Sample.store) in
  map answer
    [JS.Frac true 5 (Decimal.D9 Decimal.Nil); JS.Num (10 ^ 21); JS.Str "1e3";
     JS.Num (-5); JS.Str " 12 units"; JS.Other "5e-7"]
  = map (fun q => InventoryController.Json 200 (JS.Finite q)) [0; 6; 6; 0; 17; 10]
  /\ map answer [JS.null; JS.undefined; JS.Str "five"; JS.Bool true]
     = map (fun _ => InventoryController.JsonError 400 None) [1; 2; 3; 4]
  /\ map answer [JS.Num (-6); JS.Frac true 6 (Decimal.D5 Decimal.Nil)]
     = map (fun _ => InventoryController.JsonError 400
                       (Some "Resulting quantity cannot be negative")) [1; 2].
Proof. vm_compute. repeat split; reflexivity. Qed.



(** ** [allocateStockFEFO] *)

(** The loop only appends to the allocation it is given. *)
Lemma allocateLoop_acc (bs : list InventoryBatch) (r : Z)
    (acc : list InventoryService.AllocationEntry) :
  InventoryService.allocateLoop bs r acc
  = (fst (InventoryService.allocateLoop bs r []),
     (acc ++ snd (InventoryService.allocateLoop bs r []))%list).
Proof.
  revert r acc. induction bs as [|b bs IH]; intros r acc; simpl.
  - now rewrite app_nil_r.
  - destruct (r <=? 0); simpl.
    + now rewrite app_nil_r.
    + rewrite IH. rewrite (IH _ [_]). simpl. now rewrite <- app_assoc.
Qed.

Lemma allocateLoop_stop (bs : list InventoryBatch) (r : Z) :
  r <= 0 -> InventoryService.allocateLoop bs r [] = (r, []).
Proof.
  intros Hr. destruct bs as [|b bs]; simpl; [reflexivity|].
  destruct (Z.leb_spec r 0); [reflexivity | lia].
Qed.

Lemma allocateLoop_take (b : InventoryBatch) (bs : list InventoryBatch) (r : Z) :
  0 < r ->
  InventoryService.allocateLoop (b :: bs) r []
  = (fst (InventoryService.allocateLoop bs (r - Z.min (quantity b) r) []),
     Fefo.entryOf b (Z.min (quantity b) r)
     :: snd (InventoryService.allocateLoop bs (r - Z.min (quantity b) r) [])).
Proof.
  intros Hr. simpl.
  destruct (Z.leb_spec r 0); [lia|].
  now rewrite allocateLoop_acc.
Qed.

Lemma allocateLoop_shape (bs : list InventoryBatch) (r : Z) :
  Forall (fun b => 0 < quantity b) bs ->
  Fefo.shape bs (snd (InventoryService.allocateLoop bs r [])).
Proof.
  intros Hpos. revert r.
  induction Hpos as [|b bs Hb Hbs IH]; intros r.
  - apply Fefo.shape_done.
  - destruct (Z.leb_spec r 0) as [Hr|Hr].
    + rewrite allocateLoop_stop by exact Hr. apply Fefo.shape_done.
    + rewrite allocateLoop_take by exact Hr. simpl.
      destruct (Z.le_gt_cases (quantity b) r) as [Hq|Hq].
      * rewrite Z.min_l by exact Hq. now apply Fefo.shape_whole.
      * rewrite Z.min_r by lia. replace (r - r) with 0 by lia.
        rewrite allocateLoop_stop by lia. simpl.
        apply Fefo.shape_part. lia.
Qed.

(** What is left to find and what has been taken, against the total on hand. *)
Lemma allocateLoop_totals (bs : list InventoryBatch) (r : Z) :
  Forall (fun b => 0 < quantity b) bs -> 0 <= r ->
  fst (InventoryService.allocateLoop bs r []) = Z.max 0 (r - sum_quantity bs)
  /\ Fefo.sum_qty (snd (InventoryService.allocateLoop bs r []))
     = Z.min r (sum_quantity bs).
Proof.
  intros Hpos. revert r.
  induction Hpos as [|b bs Hb Hbs IH]; intros r Hr.
  - simpl. unfold sum_quantity. simpl. lia.
  - pose proof (sum_quantity_positive bs Hbs) as Htot.
    rewrite sum_quantity_cons.
    destruct (Z.eq_dec r 0) as [->|Hnz].
    + rewrite allocateLoop_stop by lia. simpl. lia.
    + rewrite allocateLoop_take by lia. simpl.
      destruct (IH (r - Z.min (quantity b) r)) as [-> ->]; lia.
Qed.

Lemma shape_entries (bs : list InventoryBatch)
    (al : list InventoryService.AllocationEntry) :
  Fefo.shape bs al ->
  Forall (fun e => exists b, In b bs
                     /\ e = Fefo.entryOf b (InventoryService.qty e)
                     /\ 0 < InventoryService.qty e <= quantity b) al.
Proof.
  induction 1 as [bs | b bs take Ht | b bs al Hb Hs IH].
  - constructor.
  - constructor; [|constructor].
    exists b. simpl. repeat split; auto; lia.
  - constructor.
    + exists b. simpl. repeat split; auto; lia.
    + eapply Forall_impl; [|exact IH].
      intros e [b' [Hin H']]. exists b'. split; [now right | exact H'].
Qed.

Lemma shape_sorted (bs : list InventoryBatch)
    (al : list InventoryService.AllocationEntry) :
  StronglySorted (fun a b => expiryDate a <= expiryDate b) bs ->
  Fefo.shape bs al ->
  StronglySorted
    (fun e e' => InventoryService.expiry e <= InventoryService.expiry e') al.
Proof.
  intros Hs H. induction H as [bs | b bs take Ht | b bs al Hb Hsh IH].
  - constructor.
  - repeat constructor.
  - inversion Hs as [|? ? Hs' Hall]; subst.
    constructor; [now apply IH|].
    pose proof (shape_entries _ _ Hsh) as He.
    rewrite Forall_forall in *. intros e Hin.
    destruct (He e Hin) as [b' [Hb' [-> _]]]. simpl. now apply Hall.
Qed.

(** A batch that expires strictly before an allocated one has been taken
    whole. *)
Lemma shape_earlier_whole (bs : list InventoryBatch)
    (al : list InventoryService.AllocationEntry) :
  StronglySorted (fun a b => expiryDate a <= expiryDate b) bs ->
  Fefo.shape bs al ->
  forall e b, In e al -> In b bs ->
    expiryDate b < InventoryService.expiry e ->
    exists e', In e' al /\ Fefo.takesWhole e' b.
Proof.
  intros Hs H. induction H as [bs | b0 bs take Ht | b0 bs al Hb Hsh IH];
    intros e b Hin Hbin Hlt.
  - destruct Hin.
  - exfalso. destruct Hin as [<-|[]]. simpl in Hlt.
    inversion Hs as [|? ? _ Hall]; subst. rewrite Forall_forall in Hall.
    destruct Hbin as [->|Hbin]; [lia|]. specialize (Hall b Hbin). lia.
  - inversion Hs as [|? ? Hs' Hall]; subst. rewrite Forall_forall in Hall.
    destruct Hbin as [->|Hbin].
    + exists (Fefo.entryOf b (quantity b)). split; [now left|].
      split; reflexivity.
    + destruct Hin as [<-|Hin].
      * exfalso. simpl in Hlt. specialize (Hall b Hbin). lia.
      * destruct (IH Hs' e b Hin Hbin Hlt) as [e' [He' Hw]].
        exists e'. split; [now right | exact Hw].
Qed.

Lemma available_positive (db : Store) (itemId : string) :
  Forall (fun b => 0 < quantity b) (InventoryService.fefoBatches db itemId).
Proof.
  rewrite Forall_forall. intros b Hb.
  unfold InventoryService.fefoBatches, orderByExpiryAsc in Hb.
  rewrite sort_In, filter_In, andb_true_iff, Z.ltb_lt in Hb. tauto.
Qed.

Lemma fefoBatches_In (db : Store) (itemId : string) (b : InventoryBatch) :
  In b (InventoryService.fefoBatches db itemId)
  <-> In b (inventoryBatch db) /\ batch_itemId b = itemId /\ 0 < quantity b.
Proof.
  unfold InventoryService.fefoBatches, orderByExpiryAsc.
  rewrite sort_In, filter_In, andb_true_iff, Z.ltb_lt, String.eqb_eq. tauto.
Qed.

Lemma allocateStockFEFO_allocation (db : Store) (itemId : string) (q : Z) :
  InventoryService.allocation (InventoryService.allocateStockFEFO db itemId q)
  = snd (InventoryService.allocateLoop (InventoryService.fefoBatches db itemId) q []).
Proof.
  unfold InventoryService.allocateStockFEFO.
  destruct (InventoryService.allocateLoop _ q []) as [r al]. simpl.
  now destruct (0 <? r).
Qed.

(** C3: [allocateStockFEFO] allocates first-expired-first-out.  The
    allocation runs over the item's positive-quantity batches in ascending
    order of expiry date, taking batches whole from the front, with only its
    last entry possibly taking part of a batch; its entries are in ascending
    order of expiry; and whenever a batch contributes, every positive-quantity
    batch of the item that expires strictly earlier is allocated in full. *)
Theorem allocateStockFEFO_first_expired_first_out
    (db : Store) (itemId : string) (qtyNeeded : Z) :
  StronglySorted (fun a b => expiryDate a <= expiryDate b)
    (InventoryService.fefoBatches db itemId)
  /\ Fefo.shape (InventoryService.fefoBatches db itemId)
       (InventoryService.allocation
          (InventoryService.allocateStockFEFO db itemId qtyNeeded))
  /\ StronglySorted
       (fun e e' => InventoryService.expiry e <= InventoryService.expiry e')
       (InventoryService.allocation
          (InventoryService.allocateStockFEFO db itemId qtyNeeded))
  /\ (forall e b,
        In e (InventoryService.allocation
                (InventoryService.allocateStockFEFO db itemId qtyNeeded)) ->
        In b (inventoryBatch db) -> batch_itemId b = itemId -> 0 < quantity b ->
        expiryDate b < InventoryService.expiry e ->
        exists e',
          In e' (InventoryService.allocation
                   (InventoryService.allocateStockFEFO db itemId qtyNeeded))
          /\ Fefo.takesWhole e' b).
Proof.
  rewrite allocateStockFEFO_allocation.
  pose proof (orderByExpiryAsc_sorted (Fefo.available db itemId)) as Hs.
  change (orderByExpiryAsc (Fefo.available db itemId))
    with (InventoryService.fefoBatches db itemId) in Hs.
  pose proof (allocateLoop_shape _ qtyNeeded (available_positive db itemId)) as Hsh.
  split; [exact Hs|]. split; [exact Hsh|]. split.
  - now apply shape_sorted with (bs := InventoryService.fefoBatches db itemId).
  - intros e b He Hb Hitem Hq Hlt.
    apply (shape_earlier_whole _ _ Hs Hsh e b He); [|exact Hlt].
    apply fefoBatches_In. auto.
Qed.

(** With 6 units asked of the sample store, the allocation reaches the batch
    that expires at 5000, and the batch that expires at 1000 is taken
    whole. *)
Lemma allocateStockFEFO_first_expired_first_out_witness :
  exists e',
    In e' (InventoryService.allocation
             (InventoryService.allocateStockFEFO Sample.store "rice" 6))
    /\ Fefo.takesWhole e' Sample.oldBatch.
Proof.
  apply (allocateStockFEFO_first_expired_first_out Sample.store "rice" 6)
    with (e := Fefo.entryOf Sample.midBatch 1).
  - simpl. right. left. reflexivity.
  - simpl. right. left. reflexivity.
  - reflexivity.
  - reflexivity.
  - reflexivity.
Defined.


(** * Properties of the decision pipeline *)

(** ** Forecaster *)

Lemma clamp_nonneg (x : Q) : (0 <= Forecaster.clamp x)%Q.
Proof.
  unfold Forecaster.clamp. destruct (Qle_bool 0 x) eqn:E.
  - now apply Qle_bool_iff.
  - apply Qle_refl.
Qed.

Lemma clamp_negative (x : Q) : (x < 0)%Q -> Forecaster.clamp x = 0%Q.
Proof.
  intros H. unfold Forecaster.clamp. destruct (Qle_bool 0 x) eqn:E.
  - apply Qle_bool_iff in E. lra.
  - reflexivity.
Qed.

Lemma clamp_id (x : Q) : (0 <= x)%Q -> Forecaster.clamp x = x.
Proof.
  intros H. unfold Forecaster.clamp.
  apply Qle_bool_iff in H. now rewrite H.
Qed.

(** C4: for every sales history and horizon, whatever the model and the
    threshold, [predict] returns a demand that is not negative.  On the model
    path it is the clamp of the model's projection, on the fallback path the
    clamp of the fallback value: the same clamp, which sends a negative value
    to 0 and keeps any other. *)
Theorem predict_nonnegative
    (minHistoryDays : nat) (fitModel : list Forecaster.SalesRecord -> Z -> option Q)
    (itemId : string) (history : list Forecaster.SalesRecord)
    (horizonDays : Z) (now : Date) :
  (0 <= Forecaster.predictedDemand
          (Forecaster.predict minHistoryDays fitModel itemId history horizonDays now))%Q
  /\ (forall projected,
        Forecaster.tryModel minHistoryDays fitModel history horizonDays = Some projected ->
        Forecaster.method
          (Forecaster.predict minHistoryDays fitModel itemId history horizonDays now)
        = Forecaster.MODEL
        /\ Forecaster.predictedDemand
             (Forecaster.predict minHistoryDays fitModel itemId history horizonDays now)
           = Forecaster.clamp projected)
  /\ (Forecaster.tryModel minHistoryDays fitModel history horizonDays = None ->
        Forecaster.method
          (Forecaster.predict minHistoryDays fitModel itemId history horizonDays now)
        = Forecaster.FALLBACK
        /\ Forecaster.predictedDemand
             (Forecaster.predict minHistoryDays fitModel itemId history horizonDays now)
           = Forecaster.clamp (Forecaster.fallback history horizonDays))
  /\ (forall x : Q, (x < 0)%Q -> Forecaster.clamp x = 0%Q)
  /\ (forall x : Q, (0 <= x)%Q -> Forecaster.clamp x = x).
Proof.
  unfold Forecaster.predict, Forecaster.rawDemand.
  destruct (Forecaster.tryModel minHistoryDays fitModel history horizonDays)
    as [projected|]; simpl.
  - split; [apply clamp_nonneg|]. split.
    + intros p [= <-]. split; reflexivity.
    + split; [discriminate|]. split; [apply clamp_negative | apply clamp_id].
  - split; [apply clamp_nonneg|]. split; [discriminate|].
    split; [split; reflexivity|]. split; [apply clamp_negative | apply clamp_id].
Qed.

(** A model that extrapolates a falling trend to -1000 units over 15 days of
    history, and returns (negative sales) on the fallback path. *)
Lemma predict_clamps_examples :
  let falling := fun (_ : list Forecaster.SalesRecord) (_ : Z) => Some (-1000 # 1) in
  let days := map (fun d => Forecaster.mkSale "rice" d (10 - inject_Z d)%Q)
                [1; 2; 3; 4; 5; 6; 7; 8; 9; 10; 11; 12; 13; 14; 15] in
  let returns := [Forecaster.mkSale "rice" 1 (-4 # 1); Forecaster.mkSale "rice" 2 (1 # 1)] in
  Forecaster.predict 14 falling "rice" days 14 0
  = Forecaster.mkForecast "rice" 0 Forecaster.MODEL 14 0
  /\ Forecaster.predict 14 falling "rice" returns 14 0
     = Forecaster.mkForecast "rice" 0 Forecaster.FALLBACK 14 0.
Proof. split; reflexivity. Qed.

Lemma predict_nonnegative_witness :
  Forecaster.method (Forecaster.predict 14 (fun _ _ => None) "rice" [] 14 0)
  = Forecaster.FALLBACK
  /\ Forecaster.predictedDemand (Forecaster.predict 14 (fun _ _ => None) "rice" [] 14 0)
     = Forecaster.clamp (Forecaster.fallback [] 14).
Proof.
  apply (predict_nonnegative 14 (fun _ _ => None) "rice" [] 14 0).
  reflexivity.
Defined.

(** ** SupplierRanker *)

Lemma before_spec (a b : SupplierRanker.SupplierScore) :
  SupplierRanker.before a b = true
  <-> (SupplierRanker.score b < SupplierRanker.score a)%Q
      \/ ((SupplierRanker.score a == SupplierRanker.score b)%Q
          /\ SupplierRanker.score_supplierId a <= SupplierRanker.score_supplierId b).
Proof.
  unfold SupplierRanker.before.
  destruct (SupplierRanker.score b ?= SupplierRanker.score a)%Q eqn:E.
  - apply Qeq_alt in E. rewrite Z.leb_le. split.
    + intros H. right. split; [symmetry; exact E | exact H].
    + intros [H|[_ H]]; [rewrite E in H; lra | exact H].
  - apply Qlt_alt in E. split; auto.
  - apply Qgt_alt in E. split; [discriminate|].
    intros [H|[H _]]; lra.
Qed.

Lemma before_total (a b : SupplierRanker.SupplierScore) :
  SupplierRanker.before a b = false -> SupplierRanker.before b a = true.
Proof.
  intros H. apply before_spec.
  assert (N : ~ ((SupplierRanker.score b < SupplierRanker.score a)%Q
                 \/ ((SupplierRanker.score a == SupplierRanker.score b)%Q
                     /\ SupplierRanker.score_supplierId a
                        <= SupplierRanker.score_supplierId b))).
  { intros G. apply before_spec in G. congruence. }
  destruct (Q_dec (SupplierRanker.score a) (SupplierRanker.score b)) as [[G|G]|G].
  - now left.
  - elim N. now left.
  - right. split; [symmetry; exact G|].
    destruct (Z.le_gt_cases (SupplierRanker.score_supplierId a)
                (SupplierRanker.score_supplierId b)); [|lia].
    elim N. now right.
Qed.

Lemma before_trans (a b c : SupplierRanker.SupplierScore) :
  SupplierRanker.before a b = true -> SupplierRanker.before b c = true ->
  SupplierRanker.before a c = true.
Proof.
  rewrite !before_spec. intros [H|[H H']] [G|[G G']].
  - left. lra.
  - left. lra.
  - left. lra.
  - right. split; [lra | lia].
Qed.

(** The order of a ranking: a higher score first, and the lower supplierId
    first among equal scores. *)
Lemma number_facts (k : nat) (l : list SupplierRanker.SupplierScore) :
  List.length (SupplierRanker.number k l) = List.length l
  /\ map SupplierRanker.rank (SupplierRanker.number k l) = seq k (List.length l)
  /\ map SupplierRanker.score_supplierId (SupplierRanker.number k l)
     = map SupplierRanker.score_supplierId l
  /\ map SupplierRanker.score (SupplierRanker.number k l)
     = map SupplierRanker.score l.
Proof.
  revert k. induction l as [|s l IH]; intros k; simpl.
  - repeat split.
  - destruct (IH (S k)) as [H1 [H2 [H3 H4]]].
    rewrite H1, H2, H3, H4. repeat split.
Qed.

Lemma number_sorted (k : nat) (l : list SupplierRanker.SupplierScore) :
  StronglySorted (fun a b => SupplierRanker.before a b = true) l ->
  StronglySorted (fun a b => SupplierRanker.before a b = true)
    (SupplierRanker.number k l).
Proof.
  intros H. revert k. induction H as [|a l Hs IH Hall]; intros k; simpl.
  - constructor.
  - constructor; [apply IH|].
    clear IH Hs. generalize (S k). induction Hall as [|b l Hb Hall IH]; intros n; simpl.
    + constructor.
    + constructor; [exact Hb | apply IH].
Qed.

Lemma scoreOf_supplierId (scorer : Urgency -> SupplierRanker.Supplier -> Q * SupplierRanker.Method)
    (urgency : Urgency) (l : list SupplierRanker.Supplier) :
  map SupplierRanker.score_supplierId (map (SupplierRanker.scoreOf scorer urgency) l)
  = map SupplierRanker.supplierId l.
Proof.
  induction l as [|s l IH]; simpl; [reflexivity|].
  rewrite IH. unfold SupplierRanker.scoreOf at 1.
  now destruct (scorer urgency s).
Qed.

(** C5: [rank] signals [NoSuppliersFound] exactly on the empty candidate set.
    On any other it returns a ranking with one entry per candidate (the
    candidates' ids, each as often as it was given), with ranks 1, 2, ..., n
    in this order, in descending order of score, the lower supplierId first
    among equal scores. *)
Theorem rank_contract
    (scorer : Urgency -> SupplierRanker.Supplier -> Q * SupplierRanker.Method)
    (candidateSuppliers : list SupplierRanker.Supplier) (urgency : Urgency) :
  (SupplierRanker.rank_ scorer candidateSuppliers urgency
   = inl SupplierRanker.NoSuppliersFound
   <-> candidateSuppliers = [])
  /\ (candidateSuppliers <> [] ->
      exists ranking,
        SupplierRanker.rank_ scorer candidateSuppliers urgency = inr ranking
        /\ List.length ranking = List.length candidateSuppliers
        /\ map SupplierRanker.rank ranking = seq 1 (List.length candidateSuppliers)
        /\ Permutation (map SupplierRanker.score_supplierId ranking)
             (map SupplierRanker.supplierId candidateSuppliers)
        /\ StronglySorted
             (fun a b =>
                (SupplierRanker.score b < SupplierRanker.score a)%Q
                \/ ((SupplierRanker.score a == SupplierRanker.score b)%Q
                    /\ SupplierRanker.score_supplierId a
                       <= SupplierRanker.score_supplierId b))
             ranking).
Proof.
  split.
  - destruct candidateSuppliers; simpl; split; congruence.
  - intros Hne.
    set (scored := map (SupplierRanker.scoreOf scorer urgency) candidateSuppliers).
    exists (SupplierRanker.number 1 (Order.sort SupplierRanker.before scored)).
    destruct (number_facts 1 (Order.sort SupplierRanker.before scored))
      as [Hlen [Hrank [Hid _]]].
    assert (Hl : List.length (Order.sort SupplierRanker.before scored)
                 = List.length candidateSuppliers).
    { rewrite sort_length. apply length_map. }
    split; [|split; [|split; [|split]]].
    + destruct candidateSuppliers; [congruence | reflexivity].
    + now rewrite Hlen.
    + now rewrite Hrank, Hl.
    + rewrite Hid, <- (scoreOf_supplierId scorer urgency).
      apply Permutation_map, sort_perm.
    + pose proof (number_sorted 1 _
                    (sort_sorted SupplierRanker.before before_total before_trans scored))
        as Hs.
      revert Hs. apply StronglySorted_weaken.
      intros a b Hb. now apply before_spec.
Qed.

(** Three candidates, two of them with the same score. *)
Lemma rank_contract_witness :
  exists ranking,
    SupplierRanker.rank_ (fun _ s => (inject_Z (SupplierRanker.supplierId s mod 2),
                                      SupplierRanker.RULE_BASED))
      [SupplierRanker.mkSupplier 4 None None None;
       SupplierRanker.mkSupplier 3 None None None;
       SupplierRanker.mkSupplier 2 None None None] NORMAL
    = inr ranking
    /\ List.length ranking = 3%nat
    /\ map SupplierRanker.rank ranking = [1; 2; 3]%nat
    /\ Permutation (map SupplierRanker.score_supplierId ranking) [4; 3; 2]
    /\ StronglySorted
         (fun a b =>
            (SupplierRanker.score b < SupplierRanker.score a)%Q
            \/ ((SupplierRanker.score a == SupplierRanker.score b)%Q
                /\ SupplierRanker.score_supplierId a
                   <= SupplierRanker.score_supplierId b))
         ranking.
Proof.
  apply (rank_contract
           (fun _ s => (inject_Z (SupplierRanker.supplierId s mod 2),
                        SupplierRanker.RULE_BASED))
           [SupplierRanker.mkSupplier 4 None None None;
            SupplierRanker.mkSupplier 3 None None None;
            SupplierRanker.mkSupplier 2 None None None] NORMAL).
  discriminate.
Defined.

Lemma rank_example :
  SupplierRanker.rank_ (fun _ s => (inject_Z (SupplierRanker.supplierId s mod 2),
                                    SupplierRanker.RULE_BASED))
    [SupplierRanker.mkSupplier 4 None None None;
     SupplierRanker.mkSupplier 3 None None None;
     SupplierRanker.mkSupplier 2 None None None] NORMAL
  = inr [SupplierRanker.mkScore 3 1 SupplierRanker.RULE_BASED 1;
         SupplierRanker.mkScore 2 0 SupplierRanker.RULE_BASED 2;
         SupplierRanker.mkScore 4 0 SupplierRanker.RULE_BASED 3].
Proof. reflexivity. Qed.

(** ** DecisionEngine: the stuck-task rule *)

Lemma stuckTasks_In (tasks : list DecisionEngine.Task) (now : Date)
    (d : DecisionEngine.Decision) :
  In d (DecisionEngine.stuckTasks tasks now)
  <-> exists t, In t tasks /\ DecisionEngine.isStuck now t = true
                /\ d = DecisionEngine.mkDecision DecisionEngine.STUCK_TASK URGENT t now.
Proof.
  unfold DecisionEngine.stuckTasks. rewrite in_map_iff. split.
  - intros [t [<- Ht]]. apply filter_In in Ht. exists t. tauto.
  - intros [t [Ht [Hs ->]]]. exists t. split; [reflexivity|].
    apply filter_In. tauto.
Qed.

Lemma bottlenecks_type (minSampleSize : nat)
    (isOutlier : list Z -> DecisionEngine.Task -> bool)
    (samples : list Z) (tasks : list DecisionEngine.Task) (now : Date)
    (d : DecisionEngine.Decision) :
  In d (DecisionEngine.bottlenecks minSampleSize isOutlier samples tasks now) ->
  DecisionEngine.decision_type d = DecisionEngine.BOTTLENECK.
Proof.
  unfold DecisionEngine.bottlenecks.
  destruct (Nat.ltb _ _); [intros []|].
  rewrite in_map_iff. now intros [t [<- _]].
Qed.

(** C6: among the decisions of a call, whatever the size of the sample
    history and whatever the outlier detector says, a task "in progress" is
    flagged STUCK_TASK with urgency URGENT exactly when its elapsed time has
    reached twice its expected duration, the boundary included. *)
Theorem stuck_task_rule
    (minSampleSize : nat) (isOutlier : list Z -> DecisionEngine.Task -> bool)
    (samples : list Z) (tasks : list DecisionEngine.Task) (now : Date)
    (t : DecisionEngine.Task) :
  In t tasks ->
  DecisionEngine.status t = "in progress" ->
  (In (DecisionEngine.mkDecision DecisionEngine.STUCK_TASK URGENT t now)
      (DecisionEngine.evaluateTasks minSampleSize isOutlier samples tasks now)
   <-> 2 * DecisionEngine.expectedDurationMinutes t * DecisionEngine.msPerMinute
       <= now - DecisionEngine.startedAt t)
  /\ (forall u : Urgency,
        In (DecisionEngine.mkDecision DecisionEngine.STUCK_TASK u t now)
           (DecisionEngine.evaluateTasks minSampleSize isOutlier samples tasks now) ->
        u = URGENT).
Proof.
  intros Hin Hstatus. unfold DecisionEngine.evaluateTasks.
  assert (Hstuck : DecisionEngine.isStuck now t = true
                   <-> 2 * DecisionEngine.expectedDurationMinutes t
                         * DecisionEngine.msPerMinute
                       <= now - DecisionEngine.startedAt t).
  { unfold DecisionEngine.isStuck, DecisionEngine.stuckMultiplier.
    rewrite Hstatus. simpl. apply Z.leb_le. }
  split.
  - rewrite in_app_iff, <- Hstuck. split.
    + intros [H|H].
      * apply bottlenecks_type in H. discriminate H.
      * apply stuckTasks_In in H. destruct H as [t' [_ [Hs [= <-]]]]. exact Hs.
    + intros Hs. right. apply stuckTasks_In. exists t. auto.
  - intros u H. apply in_app_iff in H. destruct H as [H|H].
    + apply bottlenecks_type in H. discriminate H.
    + apply stuckTasks_In in H. now destruct H as [t' [_ [_ [= -> _]]]].
Qed.

(** A task expected to take 30 minutes, started at 0, looked at after exactly
    60 minutes, with no sample history at all. *)
Lemma stuck_task_rule_witness :
  In (DecisionEngine.mkDecision DecisionEngine.STUCK_TASK URGENT
        (DecisionEngine.mkTask 1 "in progress" 0 30 "purchase-order") 3600000)
     (DecisionEngine.evaluateTasks 10 (fun _ _ => false) []
        [DecisionEngine.mkTask 1 "in progress" 0 30 "purchase-order"] 3600000).
Proof.
  apply (stuck_task_rule 10 (fun _ _ => false) []
           [DecisionEngine.mkTask 1 "in progress" 0 30 "purchase-order"] 3600000
           (DecisionEngine.mkTask 1 "in progress" 0 30 "purchase-order")).
  - left. reflexivity.
  - reflexivity.
  - vm_compute. discriminate.
Defined.

(** One millisecond earlier the task is not flagged. *)
Lemma not_stuck_before_boundary :
  DecisionEngine.evaluateTasks 10 (fun _ _ => false) []
    [DecisionEngine.mkTask 1 "in progress" 0 30 "purchase-order"] 3599999
  = [].
Proof. reflexivity. Qed.

(** ** CycleOrchestrator: the single-flight guard *)

Lemma step_single_flight (policy : CycleOrchestrator.Policy)
    (st : CycleOrchestrator.State) (e : CycleOrchestrator.Event) :
  (List.length (CycleOrchestrator.executing st) <= 1)%nat ->
  (List.length (CycleOrchestrator.executing (fst (CycleOrchestrator.step policy st e)))
   <= 1)%nat.
Proof.
  intros H. destruct e as [t|]; simpl.
  - destruct (CycleOrchestrator.executing st) eqn:E; simpl; [lia|].
    destruct policy; simpl; rewrite ?E; exact H.
  - destruct (CycleOrchestrator.waiting st); simpl; lia.
Qed.

Lemma run_single_flight (policy : CycleOrchestrator.Policy)
    (events : list CycleOrchestrator.Event) (st : CycleOrchestrator.State) :
  (List.length (CycleOrchestrator.executing st) <= 1)%nat ->
  (List.length
     (CycleOrchestrator.executing (fst (CycleOrchestrator.run policy st events)))
   <= 1)%nat.
Proof.
  revert st. induction events as [|e events IH]; intros st H; simpl.
  - exact H.
  - pose proof (step_single_flight policy st e H) as Hstep.
    destruct (CycleOrchestrator.step policy st e) as [st' out].
    specialize (IH st' Hstep).
    destruct (CycleOrchestrator.run policy st' events) as [final outs].
    exact IH.
Qed.

(** C7: after any sequence of scheduled and manual triggers and cycle
    completions, at most one cycle executes.  A trigger that arrives while
    none executes starts its cycle; one that arrives while a cycle is in
    flight starts nothing: by the policy it is put in the queue, or answered
    "cycle already running".  When the cycle completes, the first trigger of
    the queue starts. *)
Theorem single_flight
    (policy : CycleOrchestrator.Policy) (events : list CycleOrchestrator.Event)
    (t : CycleOrchestrator.Trigger) :
  (List.length
     (CycleOrchestrator.executing
        (fst (CycleOrchestrator.run policy CycleOrchestrator.idle events)))
   <= 1)%nat
  /\ (CycleOrchestrator.executing
        (fst (CycleOrchestrator.run policy CycleOrchestrator.idle events)) = [] ->
      CycleOrchestrator.step policy
        (fst (CycleOrchestrator.run policy CycleOrchestrator.idle events))
        (CycleOrchestrator.Arrive t)
      = (CycleOrchestrator.mkState [t]
           (CycleOrchestrator.waiting
              (fst (CycleOrchestrator.run policy CycleOrchestrator.idle events))),
         Some CycleOrchestrator.Started))
  /\ (CycleOrchestrator.executing
        (fst (CycleOrchestrator.run policy CycleOrchestrator.idle events)) <> [] ->
      CycleOrchestrator.executing
        (fst (CycleOrchestrator.step policy
                (fst (CycleOrchestrator.run policy CycleOrchestrator.idle events))
                (CycleOrchestrator.Arrive t)))
      = CycleOrchestrator.executing
          (fst (CycleOrchestrator.run policy CycleOrchestrator.idle events))
      /\ snd (CycleOrchestrator.step policy
                (fst (CycleOrchestrator.run policy CycleOrchestrator.idle events))
                (CycleOrchestrator.Arrive t))
         = Some (match policy with
                 | CycleOrchestrator.QueueAfter => CycleOrchestrator.Queued
                 | CycleOrchestrator.RejectBusy => CycleOrchestrator.CycleAlreadyRunning
                 end)
      /\ (policy = CycleOrchestrator.QueueAfter ->
          CycleOrchestrator.waiting
            (fst (CycleOrchestrator.step policy
                    (fst (CycleOrchestrator.run policy CycleOrchestrator.idle events))
                    (CycleOrchestrator.Arrive t)))
          = (CycleOrchestrator.waiting
               (fst (CycleOrchestrator.run policy CycleOrchestrator.idle events))
             ++ [t])%list))
  /\ (forall next rest,
        CycleOrchestrator.waiting
          (fst (CycleOrchestrator.run policy CycleOrchestrator.idle events))
        = next :: rest ->
        CycleOrchestrator.step policy
          (fst (CycleOrchestrator.run policy CycleOrchestrator.idle events))
          CycleOrchestrator.Complete
        = (CycleOrchestrator.mkState [next] rest, None)).
Proof.
  split.
  - apply run_single_flight. simpl. lia.
  - generalize (fst (CycleOrchestrator.run policy CycleOrchestrator.idle events)).
    intros st. split; [|split].
    + intros E. simpl. now rewrite E.
    + intros E. simpl.
      destruct (CycleOrchestrator.executing st) eqn:Ex; [congruence|].
      destruct policy; simpl; rewrite ?Ex; repeat split; congruence.
    + intros next rest E. simpl. now rewrite E.
Qed.

(** Two manual triggers back to back: the first starts, the second waits or
    is refused, and one cycle executes. *)
Lemma back_to_back_manual_triggers :
  let m1 := CycleOrchestrator.mkTrigger CycleOrchestrator.Manual 1 in
  let m2 := CycleOrchestrator.mkTrigger CycleOrchestrator.Manual 2 in
  CycleOrchestrator.run CycleOrchestrator.QueueAfter CycleOrchestrator.idle
    [CycleOrchestrator.Arrive m1; CycleOrchestrator.Arrive m2]
  = (CycleOrchestrator.mkState [m1] [m2],
     [CycleOrchestrator.Started; CycleOrchestrator.Queued])
  /\ CycleOrchestrator.run CycleOrchestrator.RejectBusy CycleOrchestrator.idle
       [CycleOrchestrator.Arrive m1; CycleOrchestrator.Arrive m2]
     = (CycleOrchestrator.mkState [m1] [],
        [CycleOrchestrator.Started; CycleOrchestrator.CycleAlreadyRunning]).
Proof. split; reflexivity. Qed.

Lemma single_flight_witness :
  CycleOrchestrator.executing
    (fst (CycleOrchestrator.step CycleOrchestrator.RejectBusy
            (fst (CycleOrchestrator.run CycleOrchestrator.RejectBusy
                    CycleOrchestrator.idle
                    [CycleOrchestrator.Arrive
                       (CycleOrchestrator.mkTrigger CycleOrchestrator.Scheduled 1)]))
            (CycleOrchestrator.Arrive
               (CycleOrchestrator.mkTrigger CycleOrchestrator.Manual 2))))
  = [CycleOrchestrator.mkTrigger CycleOrchestrator.Scheduled 1].
Proof.
  apply (single_flight CycleOrchestrator.RejectBusy
           [CycleOrchestrator.Arrive
              (CycleOrchestrator.mkTrigger CycleOrchestrator.Scheduled 1)]
           (CycleOrchestrator.mkTrigger CycleOrchestrator.Manual 2)).
  simpl. discriminate.
Defined.

(** * Further properties of the backend *)

(** ** Stock and allocation *)

Lemma sum_quantity_zero (l : list InventoryBatch) :
  Forall (fun b => 0 < quantity b) l -> sum_quantity l = 0 -> l = [].
Proof.
  intros Hpos. destruct Hpos as [|b l Hb Hl]; [reflexivity|].
  rewrite sum_quantity_cons. pose proof (sum_quantity_positive l Hl). lia.
Qed.

Lemma inventoryBatches_positive (db : Store) (i : Item) :
  Forall (fun b => 0 < quantity b) (InventoryService.inventoryBatches db i).
Proof.
  rewrite Forall_forall. intros b Hb.
  unfold InventoryService.inventoryBatches in Hb.
  rewrite filter_In, andb_true_iff, Z.ltb_lt in Hb. tauto.
Qed.

(** X1: the stock [getAllItems] reports is never negative, and it is 0 exactly
    for an item none of whose batches holds a positive quantity. *)
Theorem getAllItems_stock_sign (db : Store) (r : InventoryService.ItemWithStock) :
  In r (InventoryService.getAllItems db) ->
  0 <= InventoryService.currentStock r
  /\ (InventoryService.currentStock r = 0
      <-> forall b, In b (inventoryBatch db) ->
            batch_itemId b = item_id (InventoryService.base r) ->
            quantity b <= 0).
Proof.
  intros H. apply getAllItems_In in H. destruct H as [_ [_ ->]].
  pose proof (inventoryBatches_positive db (InventoryService.base r)) as Hpos.
  split; [now apply sum_quantity_positive|]. split.
  - intros Hz b Hb Hitem.
    apply sum_quantity_zero in Hz; [|exact Hpos].
    destruct (Z.le_gt_cases (quantity b) 0) as [Hq|Hq]; [exact Hq|].
    exfalso.
    assert (Hin : In b (InventoryService.inventoryBatches db (InventoryService.base r))).
    { unfold InventoryService.inventoryBatches.
      apply filter_In. split; [exact Hb|].
      apply andb_true_iff. split; [now apply String.eqb_eq | apply Z.ltb_lt; lia]. }
    rewrite Hz in Hin. destruct Hin.
  - intros Hall.
    destruct (InventoryService.inventoryBatches db (InventoryService.base r))
      as [|b l] eqn:E; [reflexivity|].
    exfalso.
    assert (Hin : In b (InventoryService.inventoryBatches db (InventoryService.base r)))
      by (rewrite E; now left).
    unfold InventoryService.inventoryBatches in Hin.
    rewrite filter_In, andb_true_iff, Z.ltb_lt, String.eqb_eq in Hin.
    destruct Hin as [Hb [Hitem Hq]]. specialize (Hall b Hb Hitem). lia.
Qed.

Lemma getAllItems_stock_sign_witness :
  0 <= InventoryService.currentStock (InventoryService.mkItemWithStock Sample.rice 12).
Proof.
  apply (getAllItems_stock_sign Sample.store
           (InventoryService.mkItemWithStock Sample.rice 12)).
  simpl. left. reflexivity.
Defined.

Lemma allocateStockFEFO_feasible_iff (db : Store) (itemId : string) (q : Z) :
  InventoryService.feasible (InventoryService.allocateStockFEFO db itemId q) = true
  <-> q <= sum_quantity (Fefo.available db itemId).
Proof.
  pose proof (available_positive db itemId) as Hpos.
  assert (Htot : sum_quantity (InventoryService.fefoBatches db itemId)
                 = sum_quantity (Fefo.available db itemId))
    by apply sum_quantity_perm, orderByExpiryAsc_perm.
  pose proof (sum_quantity_positive _ Hpos) as Hnn. rewrite Htot in Hnn.
  unfold InventoryService.allocateStockFEFO.
  destruct (Z.le_gt_cases q 0) as [Hq|Hq].
  - rewrite allocateLoop_stop by exact Hq.
    destruct (Z.ltb_spec 0 q); [lia|]. simpl. split; [lia | reflexivity].
  - destruct (allocateLoop_totals _ q Hpos) as [Hr _]; [lia|].
    rewrite Htot in Hr.
    destruct (InventoryService.allocateLoop _ q []) as [r al]. simpl in Hr. subst r.
    destruct (Z.ltb_spec 0 (Z.max 0 (q - sum_quantity (Fefo.available db itemId))));
      simpl; split; try discriminate; try reflexivity; lia.
Qed.

(** X2: the list and the planner agree.  For an item that [getAllItems]
    lists, [allocateStockFEFO] finds a request feasible exactly when it asks
    for no more than the [currentStock] shown. *)
Theorem allocateStockFEFO_feasible_within_currentStock
    (db : Store) (r : InventoryService.ItemWithStock) (qtyNeeded : Z) :
  In r (InventoryService.getAllItems db) ->
  (InventoryService.feasible
     (InventoryService.allocateStockFEFO db
        (item_id (InventoryService.base r)) qtyNeeded) = true
   <-> qtyNeeded <= InventoryService.currentStock r).
Proof.
  intros H. apply getAllItems_In in H. destruct H as [_ [_ ->]].
  apply allocateStockFEFO_feasible_iff.
Qed.

Lemma allocateStockFEFO_feasible_within_currentStock_witness :
  InventoryService.feasible
    (InventoryService.allocateStockFEFO Sample.store "rice" 12) = true
  <-> 12 <= 12.
Proof.
  apply (allocateStockFEFO_feasible_within_currentStock Sample.store
           (InventoryService.mkItemWithStock Sample.rice 12) 12).
  simpl. left. reflexivity.
Defined.

Lemma allocateLoop_exhausts (bs : list InventoryBatch) (r : Z) :
  Forall (fun b => 0 < quantity b) bs ->
  sum_quantity bs <= r ->
  snd (InventoryService.allocateLoop bs r [])
  = map (fun b => Fefo.entryOf b (quantity b)) bs.
Proof.
  intros Hpos. revert r.
  induction Hpos as [|b bs Hb Hbs IH]; intros r Hr.
  - reflexivity.
  - rewrite sum_quantity_cons in Hr.
    pose proof (sum_quantity_positive bs Hbs) as Htot.
    rewrite allocateLoop_take by lia. simpl.
    rewrite Z.min_l by lia. rewrite IH by lia. reflexivity.
Qed.

(** X3: when a request asks for at least the positive-quantity stock of the
    item, [allocateStockFEFO] empties every batch: the allocation has one
    entry per positive-quantity batch, in order of expiry, each taking the
    whole batch. *)
Theorem allocateStockFEFO_takes_everything
    (db : Store) (itemId : string) (qtyNeeded : Z) :
  sum_quantity (Fefo.available db itemId) <= qtyNeeded ->
  InventoryService.allocation (InventoryService.allocateStockFEFO db itemId qtyNeeded)
  = map (fun b => Fefo.entryOf b (quantity b)) (InventoryService.fefoBatches db itemId).
Proof.
  intros H. rewrite allocateStockFEFO_allocation.
  apply allocateLoop_exhausts; [apply available_positive|].
  erewrite sum_quantity_perm; [exact H | apply orderByExpiryAsc_perm].
Qed.

Lemma allocateStockFEFO_takes_everything_witness :
  InventoryService.allocation (InventoryService.allocateStockFEFO Sample.store "rice" 20)
  = map (fun b => Fefo.entryOf b (quantity b))
      (InventoryService.fefoBatches Sample.store "rice").
Proof.
  apply (allocateStockFEFO_takes_everything Sample.store "rice" 20).
  vm_compute. discriminate.
Defined.

Lemma filter_ids_NoDup (p : InventoryBatch -> bool) (l : list InventoryBatch) :
  NoDup (map batch_id l) -> NoDup (map batch_id (filter p l)).
Proof.
  induction l as [|b l IH]; simpl; intros H; [constructor|].
  inversion H as [|? ? Hnotin Hnd]; subst.
  destruct (p b); simpl; [|now apply IH].
  constructor; [|now apply IH].
  intros Hin. apply Hnotin.
  apply in_map_iff in Hin. destruct Hin as [x [Hx Hin]].
  apply filter_In in Hin. apply in_map_iff. exists x. tauto.
Qed.

Lemma shape_distinct (bs : list InventoryBatch)
    (al : list InventoryService.AllocationEntry) :
  Fefo.shape bs al ->
  NoDup (map batch_id bs) ->
  NoDup (map InventoryService.entry_batchId al).
Proof.
  induction 1 as [bs | b bs take Ht | b bs al Hb Hs IH]; simpl; intros Hnd.
  - constructor.
  - repeat constructor. intros [].
  - inversion Hnd as [|? ? Hnotin Hnd']; subst.
    constructor; [|now apply IH].
    intros Hin. apply Hnotin.
    apply in_map_iff in Hin. destruct Hin as [e [He Hin]].
    pose proof (shape_entries _ _ Hs) as Hent. rewrite Forall_forall in Hent.
    destruct (Hent e Hin) as [b' [Hb' [Heq _]]].
    apply in_map_iff. exists b'. split; [|exact Hb'].
    rewrite <- He, Heq. reflexivity.
Qed.

(** X4: when batch ids are unique in the table, no batch is allocated twice:
    the batch ids of an allocation are pairwise distinct. *)
Theorem allocateStockFEFO_distinct_batches
    (db : Store) (itemId : string) (qtyNeeded : Z) :
  NoDup (map batch_id (inventoryBatch db)) ->
  NoDup (map InventoryService.entry_batchId
           (InventoryService.allocation
              (InventoryService.allocateStockFEFO db itemId qtyNeeded))).
Proof.
  intros Hnd. rewrite allocateStockFEFO_allocation.
  apply shape_distinct with (bs := InventoryService.fefoBatches db itemId).
  - apply allocateLoop_shape, available_positive.
  - unfold InventoryService.fefoBatches.
    eapply Permutation_NoDup.
    + apply Permutation_map, Permutation_sym, orderByExpiryAsc_perm.
    + now apply filter_ids_NoDup.
Qed.

Lemma allocateStockFEFO_distinct_batches_witness :
  NoDup (map InventoryService.entry_batchId
           (InventoryService.allocation
              (InventoryService.allocateStockFEFO Sample.store "rice" 6))).
Proof.
  apply (allocateStockFEFO_distinct_batches Sample.store "rice" 6).
  simpl. repeat constructor; simpl; intuition discriminate.
Defined.

(** ** Expiry alerts *)

Lemma UTC_lessThanADayApart : lessThanADayApart UTC.
Proof. intros t t'. unfold msPerDay. simpl. lia. Qed.


(** In such a zone a window of a negative number of days ends before it
    starts. *)
Lemma addDays_negative (tz : TimeZone) (d : Date) (n : Z) (t : Date) :
  lessThanADayApart tz -> n < 0 ->
  addDays tz d (JS.Finite n) = Some t ->
  t < d.
Proof.
  intros Hz Hn. unfold addDays. cbv zeta. intros Ht.
  apply TimeClip_Some in Ht. destruct Ht as [-> _].
  destruct (Hz d (d + offsetAtUTC tz d + n * msPerDay)) as [H _].
  unfold msPerDay in *. lia.
Qed.



(** X6: a negative [days] parameter is passed on as it is, and the window it
    gives is empty.  The clock does not run backwards between the two
    readings, so in a time zone whose offsets are less than a day apart
    [getExpiring] answers with an empty list when the target date is a time
    value, and with a 500 when it lies before the first one. *)
Theorem getExpiring_negative_days
    (days : JS.value) (d : Z) (db : Store) (tz : TimeZone) (clock0 clock1 : Date) :
  lessThanADayApart tz ->
  JS.parseInt days = JS.Finite d -> d < 0 -> clock0 <= clock1 ->
  InventoryController.expiringDays days = JS.Finite d
  /\ InventoryController.getExpiring days db tz clock0 clock1
     = match addDays tz clock0 (JS.Finite d) with
       | Some _ => InventoryController.Json 200 []
       | None => InventoryController.JsonError 500 (Some "Failed to fetch alerts")
       end.
Proof.
  intros Hz Hp Hd Hc.
  assert (Hdays : InventoryController.expiringDays days = JS.Finite d).
  { unfold InventoryController.expiringDays, JS.orElse. rewrite Hp.
    destruct (Z.eqb_spec d 0); [lia | reflexivity]. }
  split; [exact Hdays|].
  unfold InventoryController.getExpiring. rewrite Hdays.
  unfold InventoryService.getExpiringBatches.
  destruct (addDays tz clock0 (JS.Finite d)) as [t|] eqn:Ht; [|reflexivity].
  pose proof (addDays_negative tz clock0 d t Hz Hd Ht) as Hlt.
  destruct (orderByExpiryAsc
              (filter (InventoryService.expiringWhere t clock1) (inventoryBatch db)))
    as [|x l] eqn:E; [reflexivity|].
  exfalso.
  assert (Hin : In x (orderByExpiryAsc
                        (filter (InventoryService.expiringWhere t clock1)
                           (inventoryBatch db))))
    by (rewrite E; now left).
  apply expiring_In in Hin. lia.
Qed.

Lemma getExpiring_negative_days_witness :
  InventoryController.expiringDays (JS.Str "-3") = JS.Finite (-3)
  /\ InventoryController.getExpiring (JS.Str "-3") Sample.store UTC 2000 2001
     = InventoryController.Json 200 [].
Proof.
  apply (getExpiring_negative_days (JS.Str "-3") (-3) Sample.store UTC 2000 2001).
  - exact UTC_lessThanADayApart.
  - reflexivity.
  - lia.
  - lia.
Defined.

(** ** Stock adjustments *)


(** Either nothing happens and the answer is a 400, or the adjustment is
    made and the answer is a 200. *)
Lemma adjustStock_cases (body : InventoryController.AdjustBody) (s : Store) :
  (exists error,
     InventoryController.adjustStock body s
     = (s, InventoryController.JsonError 400 error))
  \/ (exists found q c,
        find (fun b => String.eqb (batch_id b) (InventoryController.batchId body))
          (inventoryBatch s) = Some found
        /\ 0 <= q
        /\ InventoryController.adjustStock body s
           = (Adjustment.adjusted body s q c,
              InventoryController.Json 200 (JS.Finite q))).
Proof.
  destruct (InventoryController.adjustStock body s) as [s' [st n|st e]] eqn:E.
  - right.
    destruct (find (fun b => String.eqb (batch_id b) (InventoryController.batchId body))
                (inventoryBatch s)) as [found|] eqn:Hf.
    + rewrite (adjustStock_found body s found Hf) in E.
      destruct (JS.add _ _) as [|[|]|q]; try discriminate E.
      destruct (Z.ltb_spec q 0); [discriminate E|].
      destruct (JS.parseInt _) as [| |c]; try discriminate E.
      injection E as <- <- <-. exists found, q, c. auto.
    + exfalso. revert E.
      unfold InventoryController.adjustStock, InventoryController.adjustStockTx,
        InventoryController.transaction, InventoryController.bind,
        InventoryController.findUnique.
      rewrite Hf. discriminate.
  - left. destruct (adjustStock_failure_keeps_store _ _ _ _ _ E) as [-> ->].
    now exists e.
Qed.

(** X7: whatever the request, [adjustStock] keeps the shape of the tables:
    the items are untouched; no batch is added, removed or moved, and none
    changes its id, item, batch number or expiry date; if no quantity was
    negative before, none is after; and the transaction log either stays as
    it is (the answer is then a 400) or gets one ADJUSTMENT record at its
    end (the answer is then a 200). *)
Theorem adjustStock_keeps_tables
    (body : InventoryController.AdjustBody) (s : Store) :
  items (fst (InventoryController.adjustStock body s)) = items s
  /\ map (fun b => (batch_id b, batch_itemId b, batchNumber b, expiryDate b))
       (inventoryBatch (fst (InventoryController.adjustStock body s)))
     = map (fun b => (batch_id b, batch_itemId b, batchNumber b, expiryDate b))
         (inventoryBatch s)
  /\ (Forall (fun b => 0 <= quantity b) (inventoryBatch s) ->
      Forall (fun b => 0 <= quantity b)
        (inventoryBatch (fst (InventoryController.adjustStock body s))))
  /\ ((fst (InventoryController.adjustStock body s) = s
       /\ exists error,
            snd (InventoryController.adjustStock body s)
            = InventoryController.JsonError 400 error)
      \/ (exists record newQty,
            inventoryTransaction (fst (InventoryController.adjustStock body s))
            = (inventoryTransaction s ++ [record])%list
            /\ changeType record = "ADJUSTMENT"
            /\ tx_batchId record = InventoryController.batchId body
            /\ snd (InventoryController.adjustStock body s)
               = InventoryController.Json 200 (JS.Finite newQty)
            /\ 0 <= newQty)).
Proof.
  destruct (adjustStock_cases body s) as [[error E]|[found [q [c [Hf [Hpos E]]]]]].
  - rewrite E. simpl. repeat split; auto. left. split; [reflexivity|].
    now exists error.
  - rewrite E. unfold Adjustment.adjusted. simpl.
    split; [reflexivity|]. split; [|split].
    + rewrite map_map. apply map_ext. intros b.
      now destruct (String.eqb (batch_id b) (InventoryController.batchId body)).
    + intros Hall. rewrite Forall_forall in *. intros b Hb.
      apply in_map_iff in Hb. destruct Hb as [b0 [<- Hb0]].
      destruct (String.eqb (batch_id b0) (InventoryController.batchId body));
        simpl; auto.
    + right. eexists. exists q.
      split; [reflexivity|]. simpl. auto.
Qed.














(** * Properties of the agent's log, the accounts and the dashboard *)

(** ** The decision log *)

Lemma StronglySorted_app_split {A : Type} (R : A -> A -> Prop) (l1 l2 : list A) :
  StronglySorted R (l1 ++ l2) ->
  StronglySorted R l1 /\ (forall x y, In x l1 -> In y l2 -> R x y).
Proof.
  induction l1 as [|a l1 IH]; simpl; intros H.
  - split; [constructor | intros x y []].
  - inversion H as [|? ? Hs Hall]; subst.
    destruct (IH Hs) as [Hs1 Hcross]. rewrite Forall_forall in Hall. split.
    + constructor; [exact Hs1|]. rewrite Forall_forall.
      intros x Hx. apply Hall, in_or_app. now left.
    + intros x y [<-|Hx] Hy.
      * apply Hall, in_or_app. now right.
      * now apply Hcross.
Qed.

(** X11: [getDecisionLogs] returns the newest logs.  It returns [limit] logs
    (10 when no limit is given, as from [getLogs]), or all of them when there
    are fewer, newest first; the logs it leaves out are no newer than any it
    returns, and together with them they are the whole table. *)
Theorem getDecisionLogs_newest
    (agentDecisionLog : list AgentService.AgentDecisionLog) (limit : option nat) :
  AgentController.getLogs agentDecisionLog
  = InventoryController.Json 200
      (AgentService.getDecisionLogs agentDecisionLog (Some 10%nat))
  /\ List.length (AgentService.getDecisionLogs agentDecisionLog limit)
     = Nat.min (match limit with Some n => n | None => 10%nat end)
         (List.length agentDecisionLog)
  /\ StronglySorted
       (fun a b => AgentService.createdAt b <= AgentService.createdAt a)
       (AgentService.getDecisionLogs agentDecisionLog limit)
  /\ exists older,
       Permutation (AgentService.getDecisionLogs agentDecisionLog limit ++ older)
         agentDecisionLog
       /\ forall x y,
            In x (AgentService.getDecisionLogs agentDecisionLog limit) ->
            In y older ->
            AgentService.createdAt y <= AgentService.createdAt x.
Proof.
  split; [reflexivity|].
  unfold AgentService.getDecisionLogs.
  set (n := match limit with Some n => n | None => 10%nat end).
  assert (Hs : StronglySorted
                 (fun a b => AgentService.createdAt b <= AgentService.createdAt a)
                 (Order.sort AgentService.newest_leb agentDecisionLog)).
  { apply StronglySorted_weaken
      with (R := fun a b => AgentService.newest_leb a b = true).
    - unfold AgentService.newest_leb. intros; lia.
    - apply sort_sorted; unfold AgentService.newest_leb; intros; lia. }
  rewrite <- (firstn_skipn n (Order.sort AgentService.newest_leb agentDecisionLog))
    in Hs.
  apply StronglySorted_app_split in Hs. destruct Hs as [Hs1 Hcross].
  split; [|split; [exact Hs1|]].
  - rewrite length_firstn, sort_length. reflexivity.
  - exists (skipn n (Order.sort AgentService.newest_leb agentDecisionLog)).
    split; [|exact Hcross].
    rewrite firstn_skipn. apply sort_perm.
Qed.

(** ** The accounts *)

Lemma findUnique_None (e : string) (staff : list AuthController.Staff) :
  AuthController.findUnique e staff = None
  <-> ~ In e (map AuthController.email staff).
Proof.
  unfold AuthController.findUnique.
  induction staff as [|u staff IH]; simpl.
  - split; [intros _ [] | reflexivity].
  - destruct (String.eqb_spec (AuthController.email u) e) as [E|E].
    + split; [discriminate | intros H; elim H; now left].
    + rewrite IH. split; [intros H [H'|H']; auto | intros H H'; apply H; now right].
Qed.

Lemma findUnique_Some (e : string) (staff : list AuthController.Staff)
    (u : AuthController.Staff) :
  AuthController.findUnique e staff = Some u ->
  In u staff /\ AuthController.email u = e.
Proof.
  unfold AuthController.findUnique. intros H.
  apply find_some in H. now rewrite String.eqb_eq in H.
Qed.

Lemma findUnique_old (e : string) (staff more : list AuthController.Staff)
    (u : AuthController.Staff) :
  AuthController.findUnique e staff = Some u ->
  AuthController.findUnique e (staff ++ more) = Some u.
Proof.
  unfold AuthController.findUnique.
  induction staff as [|v staff IH]; simpl; [discriminate|].
  destruct (String.eqb (AuthController.email v) e); auto.
Qed.

Lemma findUnique_new (e : string) (staff : list AuthController.Staff)
    (u : AuthController.Staff) :
  AuthController.findUnique e staff = None ->
  AuthController.email u = e ->
  AuthController.findUnique e (staff ++ [u]) = Some u.
Proof.
  unfold AuthController.findUnique.
  induction staff as [|v staff IH]; simpl; intros Hn He.
  - now rewrite He, String.eqb_refl.
  - destruct (String.eqb (AuthController.email v) e); [discriminate | auto].
Qed.

Section AuthFacts.
Variable compare : string -> string -> bool.
Variable hash : string -> string -> string.
Variable sign : AuthController.TokenPayload -> Date -> string.
Variable verifyIdToken : string -> option (string * string).

(** What one call can do to the table: nothing, or one new account at its
    end, under an email that was free; the account is of role STAFF, unless
    the table was empty and [seedAdmin] made the default administrator. *)
Lemma after_one (c : AuthController.Call) (now : Date)
    (staff : list AuthController.Staff) :
  AuthController.after hash sign verifyIdToken c now staff = staff
  \/ exists u,
       AuthController.after hash sign verifyIdToken c now staff = (staff ++ [u])%list
       /\ ~ In (AuthController.email u) (map AuthController.email staff)
       /\ (AuthController.role u = "STAFF"
           \/ (staff = []
               /\ exists salt newId,
                    u = AuthController.mkStaff newId "System Admin"
                          "admin@autokarya.com" (hash "admin123" salt) "ADMIN" true)).
Proof.
  destruct c as [e p | n e p salt newId | token rp salt newId | salt newId]; simpl.
  - now left.
  - unfold AuthController.register.
    destruct (AuthController.findUnique e staff) eqn:E; simpl; [now left|].
    right. eexists. split; [reflexivity|]. simpl. split; [|now left].
    now apply findUnique_None.
  - unfold AuthController.googleLogin.
    destruct (verifyIdToken token) as [[e n]|]; simpl; [|now left].
    destruct (AuthController.findUnique e staff) eqn:E; simpl; [now left|].
    right. eexists. split; [reflexivity|]. simpl. split; [|now left].
    now apply findUnique_None.
  - unfold AuthController.seedAdmin.
    destruct staff as [|u staff]; simpl; [|now left].
    right. eexists. split; [reflexivity|]. split; [intros []|].
    right. split; [reflexivity|]. now exists salt, newId.
Qed.

(** X12: the account endpoints only ever add accounts.  After any sequence of
    [login], [register], [googleLogin] and [seedAdmin] calls, the staff table
    starts with the rows it had, unchanged and in place; and if emails were
    unique in it, they still are. *)
Theorem accounts_append_only
    (calls : list AuthController.Call) (now : Date)
    (staff : list AuthController.Staff) :
  (exists added,
     AuthController.afterAll hash sign verifyIdToken calls now staff
     = (staff ++ added)%list)
  /\ (NoDup (map AuthController.email staff) ->
      NoDup (map AuthController.email
               (AuthController.afterAll hash sign verifyIdToken calls now staff))).
Proof.
  revert staff. induction calls as [|c calls IH]; intros staff; simpl.
  - split; [exists []; now rewrite app_nil_r | auto].
  - destruct (IH (AuthController.after hash sign verifyIdToken c now staff))
      as [[added Hadd] Hnd].
    destruct (after_one c now staff) as [E|[u [E [Hfree _]]]].
    + rewrite E in *. split; [now exists added | exact Hnd].
    + rewrite E in *. split.
      * exists (u :: added). rewrite Hadd, <- app_assoc. reflexivity.
      * intros H. apply Hnd. rewrite map_app. simpl.
        apply Permutation_NoDup with (l := AuthController.email u
                                           :: map AuthController.email staff).
        -- apply Permutation_cons_append.
        -- now constructor.
Qed.

(** X13: no call hands out the role ADMIN, except [seedAdmin] on an empty
    table.  After any sequence of calls, an account with role ADMIN was
    already in the table, or the table was empty and the account is the
    default administrator, with the hash of the password "admin123". *)
Theorem accounts_no_new_admin
    (calls : list AuthController.Call) (now : Date)
    (staff : list AuthController.Staff) (u : AuthController.Staff) :
  In u (AuthController.afterAll hash sign verifyIdToken calls now staff) ->
  AuthController.role u = "ADMIN" ->
  In u staff
  \/ (staff = []
      /\ exists salt newId,
           u = AuthController.mkStaff newId "System Admin" "admin@autokarya.com"
                 (hash "admin123" salt) "ADMIN" true).
Proof.
  revert staff. induction calls as [|c calls IH]; intros staff; simpl.
  - intros H _. now left.
  - intros Hin Hrole.
    destruct (after_one c now staff) as [E|[v [E [_ Hv]]]]; rewrite E in Hin.
    + now apply IH.
    + destruct (IH _ Hin Hrole) as [Hold|[Hnil _]].
      * apply in_app_or in Hold. destruct Hold as [Hold|[<-|[]]]; [now left|].
        destruct Hv as [Hv|Hv]; [rewrite Hv in Hrole; discriminate | now right].
      * destruct staff; discriminate.
Qed.

(** X14: who has registered can log in.  After [register] has created an
    account for a free email, [login] with that email and the same password
    opens a session for the new account, of role STAFF, as long as [bcrypt]
    accepts the password against its own hash; with a password [bcrypt]
    rejects, the answer is the 401 "Invalid credentials". *)
Theorem register_then_login
    (n e p salt newId : string) (now now' : Date)
    (staff : list AuthController.Staff) :
  AuthController.findUnique e staff = None ->
  compare p (hash p salt) = true ->
  AuthController.login compare sign e p now'
    (fst (AuthController.register hash sign n e p salt newId now staff))
  = AuthController.Session 200
      (sign (AuthController.mkPayload newId e "STAFF") now') "STAFF" n
  /\ (forall p',
        compare p' (hash p salt) = false ->
        AuthController.login compare sign e p' now'
          (fst (AuthController.register hash sign n e p salt newId now staff))
        = AuthController.Failure 401 "Invalid credentials").
Proof.
  intros Hfree Hok. unfold AuthController.register. rewrite Hfree. simpl.
  unfold AuthController.login.
  rewrite (findUnique_new e staff
             (AuthController.mkStaff newId n e (hash p salt) "STAFF" true)
             Hfree eq_refl).
  simpl. split.
  - now rewrite Hok.
  - intros p' Hbad. now rewrite Hbad.
Qed.

(** X15: an email registers once.  Whatever the first [register] did, a
    second [register] with the same email, under any name and password, is
    answered 400 "User already exists" and leaves the table as it was. *)
Theorem register_same_email_twice
    (n e p salt newId n' p' salt' newId' : string) (now now' : Date)
    (staff : list AuthController.Staff) :
  AuthController.register hash sign n' e p' salt' newId' now'
    (fst (AuthController.register hash sign n e p salt newId now staff))
  = (fst (AuthController.register hash sign n e p salt newId now staff),
     AuthController.Failure 400 "User already exists").
Proof.
  unfold AuthController.register at 2 3.
  destruct (AuthController.findUnique e staff) as [u|] eqn:E; simpl.
  - unfold AuthController.register. now rewrite E.
  - unfold AuthController.register.
    now rewrite (findUnique_new e staff
                   (AuthController.mkStaff newId n e (hash p salt) "STAFF" true)
                   E eq_refl).
Qed.

(** X16: [seedAdmin] seeds once.  It leaves a table that has accounts as it
    is, so a second call changes nothing and the table is never empty
    afterwards; on an empty table it creates the administrator, who can then
    log in as admin@autokarya.com with "admin123" (as long as [bcrypt]
    accepts that password against its own hash). *)
Theorem seedAdmin_once
    (salt newId salt' newId' : string) (staff : list AuthController.Staff) :
  AuthController.seedAdmin hash salt' newId'
    (AuthController.seedAdmin hash salt newId staff)
  = AuthController.seedAdmin hash salt newId staff
  /\ AuthController.seedAdmin hash salt newId staff <> []
  /\ (staff <> [] -> AuthController.seedAdmin hash salt newId staff = staff)
  /\ (compare "admin123" (hash "admin123" salt) = true ->
      forall now,
        AuthController.login compare sign "admin@autokarya.com" "admin123" now
          (AuthController.seedAdmin hash salt newId [])
        = AuthController.Session 200
            (sign (AuthController.mkPayload newId "admin@autokarya.com" "ADMIN") now)
            "ADMIN" "System Admin").
Proof.
  split; [|split; [|split]].
  - destruct staff; reflexivity.
  - destruct staff; discriminate.
  - destruct staff; [congruence | reflexivity].
  - intros Hok now. unfold AuthController.login. simpl. now rewrite Hok.
Qed.

(** X17: signing in with Google.  A token the Google client refuses is
    answered 401 and changes nothing.  A token it accepts opens a session for
    the account under the token's email: the account that exists, left as it
    is with its role, or a new one of role STAFF; signing in again with the
    token adds no further account. *)
Theorem googleLogin_once
    (token rp salt newId rp' salt' newId' : string) (now now' : Date)
    (staff : list AuthController.Staff) :
  (verifyIdToken token = None ->
   AuthController.googleLogin hash sign verifyIdToken token rp salt newId now staff
   = (staff, AuthController.Failure 401 "Invalid Google Token"))
  /\ (forall e n, verifyIdToken token = Some (e, n) ->
      exists u,
        AuthController.findUnique e
          (fst (AuthController.googleLogin hash sign verifyIdToken
                  token rp salt newId now staff)) = Some u
        /\ snd (AuthController.googleLogin hash sign verifyIdToken
                  token rp salt newId now staff)
           = AuthController.Session 200
               (sign (AuthController.mkPayload (AuthController.staff_id u) e
                        (AuthController.role u)) now)
               (AuthController.role u) (AuthController.name u)
        /\ (forall v, AuthController.findUnique e staff = Some v ->
              u = v
              /\ fst (AuthController.googleLogin hash sign verifyIdToken
                        token rp salt newId now staff) = staff)
        /\ (AuthController.findUnique e staff = None ->
              u = AuthController.mkStaff newId n e (hash rp salt) "STAFF" true))
  /\ fst (AuthController.googleLogin hash sign verifyIdToken
            token rp' salt' newId' now'
            (fst (AuthController.googleLogin hash sign verifyIdToken
                    token rp salt newId now staff)))
     = fst (AuthController.googleLogin hash sign verifyIdToken
              token rp salt newId now staff).
Proof.
  unfold AuthController.googleLogin.
  destruct (verifyIdToken token) as [[e n]|] eqn:V.
  - split; [discriminate|]. split.
    + intros e0 n0 [= <- <-].
      destruct (AuthController.findUnique e staff) as [v|] eqn:E; simpl.
      * exists v. split; [exact E|]. split.
        -- unfold AuthController.tokenFor.
           destruct (findUnique_Some _ _ _ E) as [_ ->]. reflexivity.
        -- split; [intros v' [= <-]; auto | discriminate].
      * exists (AuthController.mkStaff newId n e (hash rp salt) "STAFF" true).
        split; [now apply findUnique_new|].
        split; [reflexivity|]. split; [discriminate | reflexivity].
    + destruct (AuthController.findUnique e staff) as [v|] eqn:E; simpl.
      * now rewrite E.
      * now rewrite (findUnique_new e staff
                       (AuthController.mkStaff newId n e (hash rp salt) "STAFF" true)
                       E eq_refl).
  - split; [reflexivity|]. split; [discriminate | reflexivity].
Qed.

End AuthFacts.

Lemma accounts_no_new_admin_witness :
  In (AuthController.mkStaff "1" "System Admin" "admin@autokarya.com"
        "admin123" "ADMIN" true)
     ([] : list AuthController.Staff)
  \/ (([] : list AuthController.Staff) = []
      /\ exists salt newId : string,
           AuthController.mkStaff "1" "System Admin" "admin@autokarya.com"
             "admin123" "ADMIN" true
           = AuthController.mkStaff newId "System Admin" "admin@autokarya.com"
               "admin123" "ADMIN" true).
Proof.
  apply (accounts_no_new_admin (fun p _ => p) (fun _ _ => "token") (fun _ => None)
           [AuthController.SeedAdmin "salt" "1";
            AuthController.Register "Asha" "asha@shop.in" "secret" "salt" "2"]
           0 []).
  - simpl. left. reflexivity.
  - reflexivity.
Defined.

Lemma register_then_login_witness :
  AuthController.login String.eqb (fun _ _ => "token") "asha@shop.in" "secret" 5
    (fst (AuthController.register (fun p _ => p) (fun _ _ => "token")
            "Asha" "asha@shop.in" "secret" "salt" "2" 0 []))
  = AuthController.Session 200 "token" "STAFF" "Asha".
Proof.
  apply (register_then_login String.eqb (fun p _ => p) (fun _ _ => "token")
           "Asha" "asha@shop.in" "secret" "salt" "2" 0 5 []).
  - reflexivity.
  - reflexivity.
Defined.

(** ** The inventory page *)

Lemma filter_length_mono {A : Type} (p q : A -> bool) (l : list A) :
  (forall x, In x l -> p x = true -> q x = true) ->
  (List.length (filter p l) <= List.length (filter q l))%nat.
Proof.
  induction l as [|x l IH]; simpl; intros H; [lia|].
  assert (IH' : (List.length (filter p l) <= List.length (filter q l))%nat)
    by (apply IH; intros y Hy; apply H; now right).
  destruct (p x) eqn:P.
  - rewrite (H x (or_introl eq_refl) P). simpl. lia.
  - destruct (q x); simpl; lia.
Qed.

(** X18: the cards of the inventory page, on the list the backend sends.
    With no negative reorder point, every product counted "Out of Stock" is
    also counted among the "Low Stock Items", which are at most the "Total
    Products"; the products counted out of stock are those with a red dot,
    and they are exactly the listed items none of whose batches holds a
    positive quantity; the low-stock products are those with a red or an
    amber dot. *)
Theorem inventory_cards (db : Store) :
  Forall (fun i => 0 <= reorderPoint i) (items db) ->
  (InventoryView.outOfStock (InventoryService.getAllItems db)
   <= InventoryView.lowStockItems (InventoryService.getAllItems db))%nat
  /\ (InventoryView.lowStockItems (InventoryService.getAllItems db)
      <= InventoryView.totalProducts (InventoryService.getAllItems db))%nat
  /\ InventoryView.outOfStock (InventoryService.getAllItems db)
     = List.length
         (filter (fun p => match InventoryView.stockDot p with
                           | InventoryView.Red => true
                           | _ => false
                           end)
            (InventoryService.getAllItems db))
  /\ InventoryView.outOfStock (InventoryService.getAllItems db)
     = List.length
         (filter (fun p =>
                    match InventoryService.inventoryBatches db (InventoryService.base p) with
                    | [] => true
                    | _ :: _ => false
                    end)
            (InventoryService.getAllItems db))
  /\ InventoryView.lowStockItems (InventoryService.getAllItems db)
     = List.length
         (filter (fun p => match InventoryView.stockDot p with
                           | InventoryView.Emerald => false
                           | _ => true
                           end)
            (InventoryService.getAllItems db)).
Proof.
  intros Hrp. rewrite Forall_forall in Hrp.
  unfold InventoryView.outOfStock, InventoryView.lowStockItems,
    InventoryView.totalProducts.
  split; [|split; [|split; [|split]]].
  - apply filter_length_mono. intros r Hr Hz.
    apply getAllItems_In in Hr. destruct Hr as [Hi _].
    apply Z.eqb_eq in Hz. apply Z.leb_le.
    unfold InventoryView.reorderPointOf. rewrite Hz. now apply Hrp.
  - apply List.filter_length_le.
  - f_equal. apply filter_ext. intros r. unfold InventoryView.stockDot.
    destruct (InventoryService.currentStock r =? 0); [reflexivity|].
    now destruct (InventoryService.currentStock r <=? InventoryView.reorderPointOf r).
  - f_equal. apply filter_ext_in. intros r Hr.
    apply getAllItems_In in Hr. destruct Hr as [_ [_ ->]].
    pose proof (inventoryBatches_positive db (InventoryService.base r)) as Hpos.
    destruct (InventoryService.inventoryBatches db (InventoryService.base r))
      as [|b l] eqn:E; [reflexivity|].
    apply Z.eqb_neq. intros Hz. apply sum_quantity_zero in Hz; [discriminate | exact Hpos].
  - f_equal. apply filter_ext_in. intros r Hr.
    apply getAllItems_In in Hr. destruct Hr as [Hi _].
    unfold InventoryView.stockDot.
    destruct (Z.eqb_spec (InventoryService.currentStock r) 0) as [Hz|Hz].
    + apply Z.leb_le. unfold InventoryView.reorderPointOf. rewrite Hz. now apply Hrp.
    + now destruct (InventoryService.currentStock r <=? InventoryView.reorderPointOf r).
Qed.

Lemma inventory_cards_witness :
  (InventoryView.outOfStock (InventoryService.getAllItems Sample.expiredStore)
   <= InventoryView.lowStockItems (InventoryService.getAllItems Sample.expiredStore))%nat.
Proof.
  apply (inventory_cards Sample.expiredStore).
  simpl. repeat constructor. simpl. lia.
Defined.

(** ** The chat widget *)

Lemma trimStart_head (s : string) :
  JS.trimStart s = ""
  \/ exists c r, JS.trimStart s = String c r /\ JS.isWhiteSpace c = false.
Proof.
  induction s as [|c s IH]; simpl; [now left|].
  destruct (JS.isWhiteSpace c) eqn:E; [exact IH|].
  right. now exists c, s.
Qed.

Lemma trimEnd_head (c : ascii) (r : string) :
  JS.isWhiteSpace c = false -> AgentChatWidget.trimEnd (String c r) <> "".
Proof.
  intros H. simpl. destruct (AgentChatWidget.trimEnd r); [rewrite H|]; discriminate.
Qed.

(** A query is blank when all its characters are white space. *)
Lemma trim_blank (q : string) :
  AgentChatWidget.trim q = ""
  <-> Forall (fun c => JS.isWhiteSpace c = true) (list_ascii_of_string q).
Proof.
  unfold AgentChatWidget.trim. induction q as [|c q IH]; simpl.
  - split; [constructor | reflexivity].
  - destruct (JS.isWhiteSpace c) eqn:E.
    + rewrite IH. split; [now constructor | now inversion 1].
    + split.
      * intros H. exfalso. revert H. change (AgentChatWidget.trimEnd (String c q) <> "").
        now apply trimEnd_head.
      * inversion 1; congruence.
Qed.

Lemma conversation_app (l l' : list AgentChatWidget.Message) :
  AgentChatWidget.conversation l -> AgentChatWidget.conversation l' ->
  AgentChatWidget.conversation (l ++ l').
Proof.
  induction 1 as [|q reply l Hq Hr Hl IH]; simpl; intros H'; [exact H'|].
  constructor; auto.
Qed.

Lemma act_conversation (a : AgentChatWidget.Action) (st : AgentChatWidget.State) :
  AgentChatWidget.conversation (AgentChatWidget.messages st) ->
  AgentChatWidget.loading st = false ->
  AgentChatWidget.conversation (AgentChatWidget.messages (AgentChatWidget.act a st))
  /\ AgentChatWidget.loading (AgentChatWidget.act a st) = false.
Proof.
  intros Hc Hl. destruct a as [q|outcome]; simpl; [auto|].
  unfold AgentChatWidget.sendQuery.
  destruct (String.eqb_spec (AgentChatWidget.trim (AgentChatWidget.query st)) "")
    as [E|E]; simpl; [auto|].
  destruct outcome as [response|]; simpl; (split; [|reflexivity]);
    rewrite <- app_assoc; apply conversation_app; auto; simpl;
    (constructor; [exact E | discriminate | constructor]).
Qed.

(** X19: the chat stays a conversation.  Whatever the user types, picks and
    sends, and whatever the agent answers or fails to, the messages shown are
    a sequence of turns, each a user message with a text that is not blank
    followed by the agent's answer or the error note, and the widget is left
    not loading.  A query of white space only sends no request and changes
    nothing. *)
Theorem chat_is_a_conversation
    (actions : list AgentChatWidget.Action) (outcome : AgentChatWidget.Outcome) :
  AgentChatWidget.conversation
    (AgentChatWidget.messages
       (AgentChatWidget.actAll actions AgentChatWidget.initial))
  /\ AgentChatWidget.loading
       (AgentChatWidget.actAll actions AgentChatWidget.initial) = false
  /\ (Forall (fun c => JS.isWhiteSpace c = true)
        (list_ascii_of_string
           (AgentChatWidget.query
              (AgentChatWidget.actAll actions AgentChatWidget.initial))) ->
      AgentChatWidget.sendQuery outcome
        (AgentChatWidget.actAll actions AgentChatWidget.initial)
      = (AgentChatWidget.actAll actions AgentChatWidget.initial, None)).
Proof.
  assert (H : forall st,
             AgentChatWidget.conversation (AgentChatWidget.messages st) ->
             AgentChatWidget.loading st = false ->
             AgentChatWidget.conversation
               (AgentChatWidget.messages (AgentChatWidget.actAll actions st))
             /\ AgentChatWidget.loading (AgentChatWidget.actAll actions st) = false).
  { induction actions as [|a actions IH]; simpl; intros st Hc Hl; [auto|].
    destruct (act_conversation a st Hc Hl) as [Hc' Hl']. now apply IH. }
  destruct (H AgentChatWidget.initial) as [Hc Hl];
    [constructor | reflexivity |].
  split; [exact Hc|]. split; [exact Hl|].
  intros Hblank. apply trim_blank in Hblank.
  unfold AgentChatWidget.sendQuery. now rewrite Hblank.
Qed.

(** ** A [days] parameter with a number followed by text *)

(** X20: the window of [getExpiring] for a [days] parameter made of white
    space, the decimal digits of an integer [z] and any text that starts
    with neither a digit nor an x.  The window is the double nearest to [z],
    or 7 when that is 0; for a safe integer (of magnitude below 2^53) the
    double is [z] itself, so " 14days" sets a window of 14 days, and
    [getExpiring] answers as it does for the digits alone. *)
Theorem expiringDays_number_then_text (ws rest : string) (z : Z)
    (db : Store) (tz : TimeZone) (clock0 clock1 : Date) :
  Forall (fun c => JS.isWhiteSpace c = true) (list_ascii_of_string ws) ->
  endsNumber rest = true ->
  InventoryController.expiringDays (JS.Str (ws ++ JS.digits z ++ rest))
  = JS.orElse (JS.roundToDouble z) (JS.Finite 7)
  /\ (JS.safe z ->
      InventoryController.expiringDays (JS.Str (ws ++ JS.digits z ++ rest))
      = JS.Finite (if z =? 0 then 7 else z))
  /\ InventoryController.getExpiring (JS.Str (ws ++ JS.digits z ++ rest))
       db tz clock0 clock1
     = InventoryController.getExpiring (JS.Str (JS.digits z)) db tz clock0 clock1.
Proof.
  intros Hws Hrest.
  assert (H : forall ws' rest',
            Forall (fun c => JS.isWhiteSpace c = true) (list_ascii_of_string ws') ->
            endsNumber rest' = true ->
            InventoryController.expiringDays (JS.Str (ws' ++ JS.digits z ++ rest'))
            = JS.orElse (JS.roundToDouble z) (JS.Finite 7)).
  { intros ws' rest' Hws' Hrest'.
    unfold InventoryController.expiringDays, JS.parseInt.
    change (JS.toString (JS.Str (ws' ++ JS.digits z ++ rest')))
      with (ws' ++ JS.digits z ++ rest').
    now rewrite parseIntString_digits. }
  split; [now apply H|]. split.
  - intros Hz. rewrite H by assumption.
    rewrite (roundToDouble_safe z Hz). unfold JS.orElse.
    now destruct (z =? 0).
  - unfold InventoryController.getExpiring. rewrite H by assumption.
    pose proof (H "" "" (Forall_nil _) eq_refl) as H0.
    cbn [String.append] in H0. rewrite append_empty in H0.
    now rewrite H0.
Qed.

Lemma expiringDays_number_then_text_witness :
  InventoryController.expiringDays (JS.Str (" " ++ JS.digits 14 ++ "days"))
  = JS.orElse (JS.roundToDouble 14) (JS.Finite 7)
  /\ (JS.safe 14 ->
      InventoryController.expiringDays (JS.Str (" " ++ JS.digits 14 ++ "days"))
      = JS.Finite (if 14 =? 0 then 7 else 14))
  /\ InventoryController.getExpiring (JS.Str (" " ++ JS.digits 14 ++ "days"))
       Sample.store UTC 0 0
     = InventoryController.getExpiring (JS.Str (JS.digits 14)) Sample.store UTC 0 0.
Proof.
  apply (expiringDays_number_then_text " " "days" 14 Sample.store UTC 0 0).
  - repeat constructor.
  - reflexivity.
Defined.

(** ** Alerts, stock and requests of different sizes *)

Lemma sum_quantity_filter_perm (p : InventoryBatch -> bool)
    (l l' : list InventoryBatch) :
  Permutation l l' ->
  sum_quantity (filter p l) = sum_quantity (filter p l').
Proof.
  induction 1 as [|b l l' Hp IH|a b l|l l' l'' H1 IH1 H2 IH2]; simpl.
  - reflexivity.
  - destruct (p b); rewrite ?sum_quantity_cons; lia.
  - destruct (p a), (p b); rewrite ?sum_quantity_cons; lia.
  - lia.
Qed.

(** X21: what is about to expire is part of the stock shown.  For an item
    that [getAllItems] lists, the quantities of its batches among the alerts
    [getExpiringBatches] returns, for any window, time zone and clock
    readings, sum to at most its [currentStock]. *)
Theorem expiring_within_currentStock
    (db : Store) (tz : TimeZone) (clock0 clock1 : Date) (days : JS.number)
    (batches : list InventoryService.BatchWithItem)
    (r : InventoryService.ItemWithStock) :
  In r (InventoryService.getAllItems db) ->
  InventoryService.getExpiringBatches db tz clock0 clock1 days
  = InventoryService.Returned batches ->
  sum_quantity
    (filter (fun b => String.eqb (batch_itemId b) (item_id (InventoryService.base r)))
       (map InventoryService.batch batches))
  <= InventoryService.currentStock r.
Proof.
  intros H E. apply getAllItems_In in H. destruct H as [_ [_ ->]].
  apply getExpiringBatches_Returned in E. destruct E as [targetDate [_ ->]].
  rewrite map_batch_includeItem.
  rewrite (sum_quantity_filter_perm _ _ _ (orderByExpiryAsc_perm _)).
  unfold InventoryService.inventoryBatches.
  induction (inventoryBatch db) as [|b l IH]; simpl; [reflexivity|].
  unfold InventoryService.expiringWhere at 1.
  destruct (Z.ltb_spec 0 (quantity b)) as [Hq|Hq]; simpl.
  - destruct ((expiryDate b <=? targetDate) && (clock1 <=? expiryDate b));
      simpl;
      destruct (String.eqb (batch_itemId b) (item_id (InventoryService.base r)));
      simpl; rewrite ?sum_quantity_cons; lia.
  - rewrite andb_false_r. exact IH.
Qed.

Lemma expiring_within_currentStock_witness :
  sum_quantity
    (filter (fun b => String.eqb (batch_itemId b) (item_id Sample.rice))
       (map InventoryService.batch
          (map (InventoryService.includeItem Sample.store)
             [Sample.midBatch; Sample.newBatch])))
  <= 12.
Proof.
  apply (expiring_within_currentStock Sample.store UTC 2000 2000 (JS.Finite 1) _
           (InventoryService.mkItemWithStock Sample.rice 12)).
  - simpl. left. reflexivity.
  - reflexivity.
Defined.

Lemma allocateLoop_monotone (bs : list InventoryBatch) (r r' : Z) :
  r <= r' ->
  forall e, In e (snd (InventoryService.allocateLoop bs r [])) ->
  exists e',
    In e' (snd (InventoryService.allocateLoop bs r' []))
    /\ InventoryService.entry_batchId e' = InventoryService.entry_batchId e
    /\ InventoryService.expiry e' = InventoryService.expiry e
    /\ InventoryService.qty e <= InventoryService.qty e'.
Proof.
  revert r r'. induction bs as [|b bs IH]; intros r r' Hr e He.
  - destruct He.
  - destruct (Z.le_gt_cases r 0) as [Hz|Hz].
    + rewrite allocateLoop_stop in He by exact Hz. destruct He.
    + rewrite allocateLoop_take in He by lia.
      rewrite allocateLoop_take by lia. simpl in *.
      destruct He as [<-|He].
      * eexists. split; [left; reflexivity|]. simpl. repeat split; lia.
      * destruct (IH (r - Z.min (quantity b) r) (r' - Z.min (quantity b) r'))
          with (e := e) as [e' [He' H']]; [lia | exact He |].
        exists e'. split; [now right | exact H'].
Qed.

(** X22: asking for more never takes less.  When [qtyNeeded] grows, every
    batch in the allocation of the smaller request is in the allocation of
    the larger one, with at least the same quantity taken. *)
Theorem allocateStockFEFO_monotone
    (db : Store) (itemId : string) (qtyNeeded qtyNeeded' : Z) :
  qtyNeeded <= qtyNeeded' ->
  forall e,
    In e (InventoryService.allocation
            (InventoryService.allocateStockFEFO db itemId qtyNeeded)) ->
    exists e',
      In e' (InventoryService.allocation
               (InventoryService.allocateStockFEFO db itemId qtyNeeded'))
      /\ InventoryService.entry_batchId e' = InventoryService.entry_batchId e
      /\ InventoryService.expiry e' = InventoryService.expiry e
      /\ InventoryService.qty e <= InventoryService.qty e'.
Proof.
  intros Hq e. rewrite !allocateStockFEFO_allocation.
  now apply allocateLoop_monotone.
Qed.

Lemma allocateStockFEFO_monotone_witness :
  exists e',
    In e' (InventoryService.allocation
             (InventoryService.allocateStockFEFO Sample.store "rice" 9))
    /\ InventoryService.entry_batchId e' = "b-mid"
    /\ InventoryService.expiry e' = 5000
    /\ 1 <= InventoryService.qty e'.
Proof.
  apply (allocateStockFEFO_monotone Sample.store "rice" 6 9)
    with (e := Fefo.entryOf Sample.midBatch 1).
  - lia.
  - simpl. right. left. reflexivity.
Defined.
